(** * thai2transformers: tokenizer adapters and the word-level vocabulary builder

    A shallow embedding of [thai2transformers/tokenizers.py] and of the
    imports and the main block of [scripts/seq_cls_finetune.py], with the
    properties of the vocabulary builder, the boundary-splitting
    pre-tokenizer and the word-level tokenizer class.

    Conventions of the embedding:
    - a Python [str] is a list of Unicode code points ([N]), so that [len]
      counts code points (Thai text does not fit in 8-bit characters);
    - a Python [dict] (and [Counter]) is an association list in insertion
      order with pairwise distinct keys: the order decides the indices of
      the vocabulary, so it is part of the model;
    - Python [int]s are [Z]; list positions and [enumerate] indices are [nat];
    - a raised exception is the [Raise] case of [result]. *)

From Equations Require Import Equations.
From stdpp Require Import base tactics option list numbers strings gmap.
From Stdlib Require Import ZArith Lia Ascii.

Set Default Proof Using "Type".
Local Open Scope Z_scope.

(** ** Python values shared by the modules *)

Definition char : Type := N.
Definition str : Type := list char.

(** A literal of the source, as code points. *)
Definition py (s : string) : str :=
  (fun a => N_of_ascii a) <$> String.list_ascii_of_string s.

(** The exception classes the modelled code can raise, with the part of
    Python's class hierarchy that relates them. *)
Inductive exc_class : Set :=
| BaseException | Exception
| TypeError | ValueError | AttributeError
| LookupError | KeyError | IndexError
| UnicodeError | UnicodeDecodeError
| OSError | FileNotFoundError | PermissionError | IsADirectoryError
| ImportError
| RuntimeError | RecursionError.

#[global] Instance exc_class_eq_dec : EqDecision exc_class.
Proof. solve_decision. Defined.

(** The direct base class, [None] at the root. *)
Definition base_of (c : exc_class) : option exc_class :=
  match c with
  | BaseException => None
  | Exception => Some BaseException
  | TypeError | ValueError | AttributeError | LookupError | OSError
  | ImportError | RuntimeError => Some Exception
  | KeyError | IndexError => Some LookupError
  | UnicodeError => Some ValueError
  | UnicodeDecodeError => Some UnicodeError
  | FileNotFoundError | PermissionError | IsADirectoryError => Some OSError
  | RecursionError => Some RuntimeError
  end.

(** [issubclass c d]; the hierarchy above has depth 4. *)
Fixpoint issubclass_fuel (fuel : nat) (c d : exc_class) : bool :=
  bool_decide (c = d) ||
  match fuel, base_of c with
  | S fuel', Some b => issubclass_fuel fuel' b d
  | _, _ => false
  end.
Definition issubclass : exc_class -> exc_class -> bool := issubclass_fuel 4.

(** What an exception is made from: a message; the arguments of an
    [OSError] (the error number, its text and the file name, shown by the
    interpreter as [[Errno n] text: 'name']); the key of a [KeyError]
    (shown as the [repr] of the key); the name that an import did not
    find in a module; or, for a [RecursionError], nothing but the fact
    that the recursion limit was reached (the interpreter words it by the
    place where it notices). *)
Inductive exc_args : Type :=
| Message (message : string)
| OfFile (errno : Z) (strerror : string) (filename : str)
| OfKey (key : str)
| OfName (name module : str)
| DepthExceeded.
Coercion Message : string >-> exc_args.

Record exn : Type := MkExn { exn_class : exc_class; exn_args : exc_args }.

Definition isinstance (e : exn) (c : exc_class) : bool := issubclass (exn_class e) c.

Inductive result (A : Type) : Type :=
| Ok (a : A)
| Raise (e : exn).
Arguments Ok {A} a.
Arguments Raise {A} e.

#[global] Instance result_ret : MRet result := fun A a => Ok a.
#[global] Instance result_bind : MBind result := fun A B k m =>
  match m with
  | Ok a => k a
  | Raise e => Raise e
  end.

(** [[f(x) for x in l]] where [f] may raise: the first exception ends the
    comprehension. *)
Fixpoint for_each {A B} (f : A -> result B) (l : list A) : result (list B) :=
  match l with
  | [] => Ok []
  | x :: l' =>
      y ← f x; ys ← for_each f l'; mret (y :: ys)
  end.

(** [enumerate(l)], counting from [start]. *)
Fixpoint enumerate_from {A} (start : nat) (l : list A) : list (nat * A) :=
  match l with
  | [] => []
  | x :: l' => (start, x) :: enumerate_from (S start) l'
  end.
Definition enumerate {A} (l : list A) : list (nat * A) := enumerate_from 0 l.

(** [s[a:b]] and [s[a:]] for non-negative [a], [b]: positions [a <= i < b]
    that exist in [s]; empty when [b <= a]. *)
Definition slice {A} (s : list A) (a b : nat) : list A := take (b - a) (drop a s).
Definition slice_from {A} (s : list A) (a : nat) : list A := drop a s.

(** ** CustomPreTokenizer *)

Module CustomPreTokenizer.

Section split.
(** The wrapped segmentation function: any function from a string to a
    list of words. *)
Variable pre_tokenize_func : str -> list str.

(** First loop of [split]: the running total of the word lengths after
    each word. *)
Definition break_step (st : nat * list nat) (word : str) : nat * list nat :=
  let '(total_i, break_i) := st in
  let total_i := (total_i + length word)%nat in
  (total_i, break_i ++ [total_i]).

Definition break_points (words : list str) : list nat :=
  (fold_left break_step words (0%nat, [])).2.

(** Second loop: one round per position of the string; the state is
    [(splits, last)]. *)
Definition split_step (normalized_string : str) (break_i : list nat)
    (st : list str * nat) (ic : nat * char) : list str * nat :=
  let '(splits, last) := st in
  let '(i, _) := ic in
  if bool_decide (i ∈ break_i)
  then (splits ++ [slice normalized_string last i], i)
  else (splits, last).

(** [split(self, n, normalized_string)]; the normalized string is its
    text, sliced by character positions. [n] is not used by the source. *)
Definition split (n : Z) (normalized_string : str) : list str :=
  let break_i := break_points (pre_tokenize_func normalized_string) in
  let '(splits, last) :=
    fold_left (split_step normalized_string break_i)
              (enumerate normalized_string) ([], 0%nat) in
  splits ++ [slice_from normalized_string last].
End split.

End CustomPreTokenizer.

(** ** Dictionaries and counters *)

(** A [dict] keeps its items in insertion order; assigning to a present
    key keeps its position, [del] removes the item. *)
Abbreviation dict V := (list (str * V)).

Section dict_ops.
Context {V : Type}.

(** [d.get(k)] *)
Fixpoint dict_get (d : dict V) (k : str) : option V :=
  match d with
  | [] => None
  | (k', v) :: d' => if decide (k' = k) then Some v else dict_get d' k
  end.

(** [k in d] *)
Definition dict_contains (d : dict V) (k : str) : bool :=
  match dict_get d k with Some _ => true | None => false end.

(** [d[k] = v] *)
Fixpoint dict_set (d : dict V) (k : str) (v : V) : dict V :=
  match d with
  | [] => [(k, v)]
  | (k', v') :: d' =>
      if decide (k' = k) then (k', v) :: d' else (k', v') :: dict_set d' k v
  end.

(** [del d[k]], for a key that is present (the source checks it). *)
Fixpoint dict_del (d : dict V) (k : str) : dict V :=
  match d with
  | [] => []
  | (k', v') :: d' =>
      if decide (k' = k) then d' else (k', v') :: dict_del d' k
  end.

(** [dict(pairs)] *)
Definition dict_of_pairs (pairs : list (str * V)) : dict V :=
  fold_left (fun d kv => dict_set d kv.1 kv.2) pairs [].

Definition keys (d : dict V) : list str := d.*1.
Definition values (d : dict V) : list V := d.*2.
End dict_ops.

Abbreviation Counter := (list (str * Z)).

(** [c[k]]: a missing key counts zero. *)
Definition Counter_getitem (c : Counter) (k : str) : Z := default 0 (dict_get c k).

(** [Counter(iterable)]: one increment per element, in order. *)
Definition Counter_count (c : Counter) (elem : str) : Counter :=
  dict_set c elem (default 0 (dict_get c elem) + 1).
Definition Counter_new (iterable : list str) : Counter :=
  fold_left Counter_count iterable [].

(** [Counter.__add__]: the items of [self] with a positive summed count,
    then the items of [other] that [self] lacks, when positive. *)
Definition Counter_add (self other : Counter) : Counter :=
  let result :=
    fold_left (fun result ec =>
                 let newcount := ec.2 + Counter_getitem other ec.1 in
                 if 0 <? newcount then dict_set result ec.1 newcount else result)
              self [] in
  fold_left (fun result ec =>
               if negb (dict_contains self ec.1) && (0 <? ec.2)
               then dict_set result ec.1 ec.2 else result)
            other result.

(** [sum(counters, Counter())] *)
Definition Counter_sum (counters : list Counter) : Counter :=
  fold_left Counter_add counters [].

(** [sorted(items, key=itemgetter(1), reverse=True)]: by decreasing
    count, items of equal count in their original order. *)
Fixpoint insert_desc (x : str * Z) (l : list (str * Z)) : list (str * Z) :=
  match l with
  | [] => [x]
  | y :: l' => if y.2 <=? x.2 then x :: y :: l' else y :: insert_desc x l'
  end.
Definition sorted_desc (items : list (str * Z)) : list (str * Z) :=
  foldr insert_desc [] items.

(** [Counter.most_common(n)] for an integer [n]: [heapq.nlargest], which
    is empty for [n <= 0]. *)
Definition most_common (c : Counter) (n : Z) : list (str * Z) :=
  take (Z.to_nat n) (sorted_desc c).

(** ** Text files *)

(** [str.isspace] on one code point. *)
Definition is_whitespace (c : char) : bool :=
  ((9 <=? c) && (c <=? 13) || (28 <=? c) && (c <=? 32)
   || (c =? 133) || (c =? 160) || (c =? 5760)
   || (8192 <=? c) && (c <=? 8202)
   || (c =? 8232) || (c =? 8233) || (c =? 8239) || (c =? 8287) || (c =? 12288))%N.

Fixpoint lstrip (s : str) : str :=
  match s with
  | c :: s' => if is_whitespace c then lstrip s' else s
  | [] => []
  end.
Definition rstrip (s : str) : str := reverse (lstrip (reverse s)).
Definition strip (s : str) : str := rstrip (lstrip s).
Definition isspace (s : str) : bool :=
  negb (bool_decide (s = [])) && forallb is_whitespace s.

(** What opening a file by name and reading it to its end gives: the
    decoded text (newlines already translated to U+000A), or the exception
    that ends the reading, whichever it is: that of [open] (no such file,
    no permission, a directory), that of [get_file_size], which serves
    the progress display, or that of a [readline] (bytes that do not
    decode). *)
Definition filesystem : Type := str -> result str.

Definition newline : char := 10%N.

(** [f.readline()] on the unread text: the line with its newline, and
    what is left; the empty string at the end of the file. *)
Fixpoint readline (f : str) : str * str :=
  match f with
  | [] => ([], [])
  | c :: f' =>
      if decide (c = newline) then ([c], f')
      else let '(line, rest) := readline f' in (c :: line, rest)
  end.

(** A value together with the equation that names it. *)
Definition inspect {A} (x : A) : {y : A | x = y} := exist _ x eq_refl.

(** The [while True] loop of [count_one]: read a line; at the end of the
    file stop, otherwise strip it and, when something is left, extend
    [words] by its tokens. [get_file_size] (module [helper]) is only used
    for the progress message, printed every 5000 lines; it is taken to
    leave the read position at the start of the file, and the message is
    not part of the model. *)
Equations? read_loop (pre_tokenize_func : str -> list str) (f : str)
    (words : list str) : list str by wf (length f) lt :=
  read_loop pre_tokenize_func f words with inspect (readline f) := {
    | exist _ ([], _) _ => words
    | exist _ (c :: line, rest) Hread =>
        let line := strip (c :: line) in
        read_loop pre_tokenize_func rest
          (if bool_decide (0 < length line)%nat && negb (isspace line)
           then words ++ pre_tokenize_func line
           else words) }.
Proof.
  (* a line and what is left of the text add up to the text *)
  assert (Hlen : forall (g l r : str),
             readline g = (l, r) -> length g = (length l + length r)%nat).
  { clear. induction g as [|c g IH]; intros l r; simpl.
    - by intros [= <- <-].
    - case_decide.
      + by intros [= <- <-].
      + destruct (readline g) as [l' r']. intros [= <- <-]. simpl.
        by rewrite (IH l' r'). }
  apply Hlen in Hread. simpl in Hread. lia.
Qed.

(** ** Messages of the interpreter's own errors *)

Definition dquote : string := String (ascii_of_nat 34) EmptyString.

Definition concat_TypeError : exn :=
  MkExn TypeError
    ("can only concatenate list (not " +:+ dquote +:+ "Counter" +:+ dquote +:+ ") to list").
Definition compare_TypeError : exn :=
  MkExn TypeError "'>=' not supported between instances of 'int' and 'NoneType'".
Definition raise_TypeError : exn :=
  MkExn TypeError "exceptions must derive from BaseException".
(** [FileNotFoundError(2, 'No such file or directory', fname)], the error
    of [open] for a name that no file has. *)
Definition open_FileNotFoundError (fname : str) : exn :=
  MkExn FileNotFoundError (OfFile 2 "No such file or directory" fname).
(** The recursion limit of the interpreter is reached. *)
Definition depth_RecursionError : exn := MkExn RecursionError DepthExceeded.

(** ** WordLevelTrainer *)

Module WordLevelTrainer.

Record t : Type := Build {
  pre_tokenize_func : str -> list str;
  vocab_size : option Z;
  special_tokens : list str;
  input_files : list str;
  vocab : option (dict nat);
  freq : option (list (str * Z));
  vocab_min_freq : option Z;
  progress : bool }.

(** [WordLevelTrainer(...)]: the attributes are set, then the two cutoffs
    are checked. *)
Definition __init__ (pre_tokenize_func : str -> list str) (input_files : list str)
    (additional_special_tokens : list str) (vocab_size vocab_min_freq : option Z)
    (progress : bool) : result t :=
  let self :=
    {| pre_tokenize_func := pre_tokenize_func;
       vocab_size := vocab_size;
       special_tokens := additional_special_tokens;
       input_files := input_files;
       vocab := None;
       freq := None;
       vocab_min_freq := vocab_min_freq;
       progress := progress |} in
  if bool_decide (vocab_min_freq ≠ None) && bool_decide (vocab_size ≠ None)
  then Raise (MkExn AttributeError "use only vocab_min_freq or vocab_size")
  else Ok self.

(** The value bound to [counter_all] after the cutoff: still the
    [Counter], or the list of retained items. *)
Inductive counted : Type :=
| AsCounter (c : Counter)
| AsList (l : list (str * Z)).

(** [list + value] *)
Definition list_concat (l : list (str * Z)) (v : counted) : result (list (str * Z)) :=
  match v with
  | AsList l' => Ok (l ++ l')
  | AsCounter _ => Raise concat_TypeError
  end.

(** [value >= bound] for an integer [value] *)
Definition int_ge (value : Z) (bound : option Z) : result bool :=
  match bound with
  | Some m => Ok (m <=? value)
  | None => Raise compare_TypeError
  end.

(** [[(key, value) for key, value in items if value >= bound]] *)
Fixpoint items_at_least (items : list (str * Z)) (bound : option Z)
    : result (list (str * Z)) :=
  match items with
  | [] => Ok []
  | (key, value) :: items' =>
      keep ← int_ge value bound;
      kept ← items_at_least items' bound;
      mret (if keep : bool then (key, value) :: kept else kept)
  end.

(** One round of the loop over the special tokens; the state is
    [(special_tok_freq, counter_all)]. *)
Definition take_special (st : dict Z * Counter) (tok : str) : dict Z * Counter :=
  let '(special_tok_freq, counter_all) := st in
  if dict_contains counter_all tok
  then (dict_set special_tok_freq tok (Counter_getitem counter_all tok),
        dict_del counter_all tok)
  else (special_tok_freq, counter_all).

Section methods.
Variable fs : filesystem.

(** [count_one(self, fname)]: an exception of [open] or of a [readline]
    leaves the function, since nothing catches it. *)
Definition count_one (self : t) (fname : str) : result Counter :=
  match fs fname with
  | Raise e => Raise e
  | Ok f => Ok (Counter_new (read_loop (pre_tokenize_func self) f []))
  end.

(** The body of [count_parallel] up to the assignment of [self.freq]. *)
Definition count_freq (self : t) : result (list (str * Z)) :=
  counters ← for_each (count_one self) (input_files self);
  let counter_all := Counter_sum counters in
  let '(special_tok_freq, counter_all) :=
    fold_left take_special (special_tokens self) ([], counter_all) in
  counter_all ←
    match vocab_size self with
    | Some n => let _ := most_common counter_all n in Ok (AsCounter counter_all)
    | None =>
        kept ← items_at_least counter_all (vocab_min_freq self);
        mret (AsList kept)
    end;
  list_concat
    ((fun tok => (tok, default 0 (dict_get special_tok_freq tok))) <$> special_tokens self)
    counter_all.

(** [dict((c[0], i) for i, c in enumerate(freq))] *)
Definition index_vocab (freq : list (str * Z)) : dict nat :=
  dict_of_pairs ((fun ic => ((ic.2).1, ic.1)) <$> enumerate freq).

(** [count_parallel(self, nb_cores)]: the returned value (or the
    exception) and the trainer afterwards. [nb_cores] is not used by the
    source. An exception leaves [self.freq] and [self.vocab] as they were. *)
Definition count_parallel (self : t) (nb_cores : Z) : result (dict nat) * t :=
  match count_freq self with
  | Raise e => (Raise e, self)
  | Ok freq =>
      let vocab := index_vocab freq in
      (Ok vocab,
       {| pre_tokenize_func := pre_tokenize_func self;
          vocab_size := vocab_size self;
          special_tokens := special_tokens self;
          input_files := input_files self;
          vocab := Some vocab;
          freq := Some freq;
          vocab_min_freq := vocab_min_freq self;
          progress := progress self |})
  end.
End methods.

End WordLevelTrainer.


(** ** Text of the tokenizer classes *)

Definition SPIECE_UNDERLINE : char := 9601%N.
Definition SPACE_TOKEN : str := py "<_>".
Definition space : char := 32%N.

(** [s.replace(old, new)] for a pattern [old] of one character: every
    occurrence is replaced. *)
Fixpoint replace_char (old : char) (new : str) (s : str) : str :=
  match s with
  | [] => []
  | c :: s' =>
      (if decide (c = old) then new else [c]) ++ replace_char old new s'
  end.

Definition is_pretokenized_warning : string :=
  "`is_pretokenized` is deprecated and will be removed in a future version, use `is_split_into_words` instead.".

(** ** ThaiRobertaTokenizer *)

Module ThaiRobertaTokenizer.

(** [convert_tokens_to_string(self, tokens)] *)
Definition convert_tokens_to_string (tokens : list str) : str :=
  strip (replace_char SPIECE_UNDERLINE [newline] (mjoin tokens)).

(** [prepare_for_tokenization(self, text, is_split_into_words, **kwargs)]:
    the returned pair, and the warnings given. The value popped from
    [kwargs] is bound to [is_split_into_words] and not used. *)
Definition prepare_for_tokenization {V} (text : str) (is_split_into_words : bool)
    (kwargs : gmap str V) : (str * gmap str V) * list string :=
  let '(kwargs, warnings) :=
    match kwargs !! py "is_pretokenized" with
    | Some _ => (delete (py "is_pretokenized") kwargs, [is_pretokenized_warning])
    | None => (kwargs, [])
    end in
  let text := replace_char space SPACE_TOKEN text in
  ((text, kwargs), warnings).

End ThaiRobertaTokenizer.

(** ** ThaiWordsNewmmTokenizer *)

Module ThaiWordsNewmmTokenizer.

(** What the methods below read of the tokenizer: the vocabulary of the
    word-level model loaded from [vocab_file] (token to id); the ids of
    the [cls] and [sep] tokens, which the methods that build sequences
    take as given; and what the base class [PreTrainedTokenizer] keeps to
    find the id of the unknown token: the token itself ([_unk_token],
    [None] when it is not set) and the tokens added after loading. *)
Record t : Type := Build {
  tokenizer_model : gmap str Z;
  cls_token_id : Z;
  sep_token_id : Z;
  unk_token : option str;
  added_tokens_encoder : gmap str Z }.

(** [self.tokenizer_model.token_to_id(token)]: the id, or [None]. *)
Definition token_to_id (self : t) (token : str) : option Z :=
  tokenizer_model self !! token.

Definition build_inputs_with_special_tokens (self : t) (token_ids_0 : list Z)
    (token_ids_1 : option (list Z)) : list Z :=
  match token_ids_1 with
  | None => [cls_token_id self] ++ token_ids_0 ++ [sep_token_id self]
  | Some token_ids_1 =>
      let cls := [cls_token_id self] in
      let sep := [sep_token_id self] in
      cls ++ token_ids_0 ++ sep ++ sep ++ token_ids_1 ++ sep
  end.

Definition get_special_tokens_mask (self : t) (token_ids_0 : list Z)
    (token_ids_1 : option (list Z)) (already_has_special_tokens : bool)
    : result (list Z) :=
  if already_has_special_tokens then
    match token_ids_1 with
    | Some _ =>
        Raise (MkExn ValueError
          ("You should not supply a second sequence if the provided sequence of " +:+
           "ids is already formated with special tokens for the model."))
    | None =>
        Ok ((fun x => if bool_decide (x ∈ [sep_token_id self; cls_token_id self])
                      then 1 else 0) <$> token_ids_0)
    end
  else
    match token_ids_1 with
    | None => Ok ([1] ++ replicate (length token_ids_0) 0 ++ [1])
    | Some token_ids_1 =>
        Ok ([1] ++ replicate (length token_ids_0) 0 ++ [1; 1]
                ++ replicate (length token_ids_1) 0 ++ [1])
    end.

Definition create_token_type_ids_from_sequences (self : t) (token_ids_0 : list Z)
    (token_ids_1 : option (list Z)) : list Z :=
  let sep := [sep_token_id self] in
  let cls := [cls_token_id self] in
  match token_ids_1 with
  | None => replicate (length (cls ++ token_ids_0 ++ sep)) 0
  | Some token_ids_1 =>
      replicate (length (cls ++ token_ids_0 ++ sep ++ sep ++ token_ids_1 ++ sep)) 0
  end.

(** [_convert_token_to_id] and the three methods of the base class that
    it reaches through [self.unk_token_id]:
    - the property [unk_token_id] returns [None] when no unknown token is
      set, and [self.convert_tokens_to_ids(self.unk_token)] otherwise;
    - [convert_tokens_to_ids], given one token, returns
      [self._convert_token_to_id_with_added_voc(token)];
    - [_convert_token_to_id_with_added_voc] returns the id of an added
      token, and [self._convert_token_to_id(token)] for any other.
    The four call each other, so each takes the number of frames that the
    interpreter still allows, [depth]: a call that finds none raises
    [RecursionError]. The result is an id or [None]. *)
Fixpoint _convert_token_to_id (depth : nat) (self : t) (token : str) {struct depth}
    : result (option Z) :=
  match depth with
  | O => Raise depth_RecursionError
  | S depth =>
      match token_to_id self token with
      | None => unk_token_id depth self
      | Some i => Ok (Some i)
      end
  end
with unk_token_id (depth : nat) (self : t) {struct depth} : result (option Z) :=
  match depth with
  | O => Raise depth_RecursionError
  | S depth =>
      match unk_token self with
      | None => Ok None
      | Some unk => convert_tokens_to_ids depth self unk
      end
  end
with convert_tokens_to_ids (depth : nat) (self : t) (tokens : str) {struct depth}
    : result (option Z) :=
  match depth with
  | O => Raise depth_RecursionError
  | S depth => _convert_token_to_id_with_added_voc depth self tokens
  end
with _convert_token_to_id_with_added_voc (depth : nat) (self : t) (token : str)
    {struct depth} : result (option Z) :=
  match depth with
  | O => Raise depth_RecursionError
  | S depth =>
      match added_tokens_encoder self !! token with
      | Some i => Ok (Some i)
      | None => _convert_token_to_id depth self token
      end
  end.

(** [convert_tokens_to_string(self, tokens)] *)
Definition convert_tokens_to_string (tokens : list str) : str :=
  strip (mjoin tokens).

(** [prepare_for_tokenization], the same text as in [ThaiRobertaTokenizer]. *)
Definition prepare_for_tokenization {V} (text : str) (is_split_into_words : bool)
    (kwargs : gmap str V) : (str * gmap str V) * list string :=
  let '(kwargs, warnings) :=
    match kwargs !! py "is_pretokenized" with
    | Some _ => (delete (py "is_pretokenized") kwargs, [is_pretokenized_warning])
    | None => (kwargs, [])
    end in
  let text := replace_char space SPACE_TOKEN text in
  ((text, kwargs), warnings).

End ThaiWordsNewmmTokenizer.

(** ** The script seq_cls_finetune.py *)

Module seq_cls_finetune.

(** The names that [thai2transformers/tokenizers.py] binds at its top
    level, in the order of the file (besides those that every module
    has): what its imports bring, its variables, and its four classes. *)
Definition tokenizers_names : list str :=
  [ py "os"; py "List"; py "Optional"; py "Tuple"; py "copyfile"; py "spm";
    py "warnings"; py "logging"; py "json"; py "multiprocessing"; py "Counter";
    py "Collection"; py "Callable"; py "Dict"; py "NormalizedString";
    py "PreTokenizedString"; py "PreTrainedTokenizer"; py "Tokenizer";
    py "pre_tokenizers"; py "models"; py "word_tokenize"; py "syllable_tokenize";
    py "thai_syllables"; py "thai_words"; py "Trie"; py "partial"; py "get_file_size";
    py "logger"; py "VOCAB_FILES_NAMES"; py "PRETRAINED_POSITIONAL_EMBEDDINGS_SIZES";
    py "SPIECE_UNDERLINE"; py "SPACE_TOKEN"; py "DEPRECATED_SPACE_TOKEN";
    py "ADDITIONAL_SPECIAL_TOKENS"; py "PRE_TOKENIZERS_MAP"; py "_nb_cores";
    py "CustomPreTokenizer"; py "WordLevelTrainer"; py "ThaiRobertaTokenizer";
    py "ThaiWordsNewmmTokenizer" ].

(** [from module import name, ...] for a module, not a package, that
    binds the names [bound]: the names are looked up in their order, and
    the first that the module does not bind raises an [ImportError]. *)
Fixpoint import_from (module : str) (bound : list str) (names : list str) : result unit :=
  match names with
  | [] => Ok tt
  | name :: names' =>
      if decide (name ∈ bound)
      then import_from module bound names'
      else Raise (MkExn ImportError (OfName name module))
  end.

Inductive tokenizer_cls : Set :=
| ThaiRobertaTokenizer
| ThaiWordsNewmmTokenizer
| ThaiWordsSyllableTokenizer
| FakeSefrCutTokenizer.

Definition TOKENIZER_CLS : dict tokenizer_cls :=
  [ (py "spm", ThaiRobertaTokenizer);
    (py "newmm", ThaiWordsNewmmTokenizer);
    (py "syllable", ThaiWordsSyllableTokenizer);
    (py "sefr", FakeSefrCutTokenizer) ].

Record metadata : Type := Metadata {
  text_input : str;
  label : str;
  num_labels : Z }.

Definition DATASET_METADATA : dict metadata :=
  [ (py "wisesight_sentiment", Metadata (py "texts") (py "category") 4);
    (py "wongnai_reviews", Metadata (py "review_body") (py "star_rating") 5);
    (py "generated_reviews_then", Metadata (py "translation.th") (py "review_star") 5) ].

(** The operand of a [raise] statement: an exception, or a string. *)
Inductive raised : Type :=
| AnException (e : exn)
| AString (s : str).

(** [raise operand]: an operand that is not an exception is itself an
    error of the statement. *)
Definition raise_stmt {A} (operand : raised) : result A :=
  match operand with
  | AnException e => Raise e
  | AString _ => Raise raise_TypeError
  end.

(** [d[k]]: a missing key raises [KeyError(k)]. *)
Definition dict_getitem {V} (d : dict V) (k : str) : result V :=
  match dict_get d k with
  | Some v => Ok v
  | None => Raise (MkExn KeyError (OfKey k))
  end.

Section main.
(** What the script takes from outside the two source files: the imports
    of lines 1 to 24 (libraries, and modules of the package that are not
    among the sources) together with the execution of [tokenizers.py]
    when it is imported; loading the dataset; importing and loading the
    [sefr_cut] model; re-tokenizing a column of the dataset; and
    everything from the construction of the model and the tokenizer to
    the evaluation. *)
Context {dataset : Type}.
Variable other_imports : result unit.
Variable load_dataset : str -> result dataset.
Variable sefr_load_model : result unit.
Variable sefr_map : str -> dataset -> result dataset.
Variable train_and_evaluate : tokenizer_cls -> metadata -> dataset -> result unit.

(** Lines 1 to 31: the last import asks [thai2transformers.tokenizers]
    for four classes. *)
Definition imports : result unit :=
  _ ← other_imports;
  import_from (py "thai2transformers.tokenizers") tokenizers_names
    [ py "ThaiRobertaTokenizer"; py "ThaiWordsNewmmTokenizer";
      py "ThaiWordsSyllableTokenizer"; py "FakeSefrCutTokenizer" ].

(** The [sefr] branch inside the [try] block: the model is loaded, then
    the name of the text column is looked up. *)
Definition sefr_prepare (dataset_name : str) (ds : dataset) : result dataset :=
  _ ← sefr_load_model;
  meta ← dict_getitem DATASET_METADATA dataset_name;
  sefr_map (text_input meta) ds.

(** [try: ... except Exception as e: raise e] *)
Definition load (tokenizer_type dataset_name : str) : result dataset :=
  match
    (dataset ← load_dataset dataset_name;
     if decide (tokenizer_type = py "sefr")
     then sefr_prepare dataset_name dataset
     else mret dataset)
  with
  | Ok dataset => Ok dataset
  | Raise e => raise_stmt (AnException e)
  end.

(** After the tokenizer class is chosen: [num_labels] is looked up as an
    argument of [init_model_tokenizer_for_seq_cls], before the call. *)
Definition finetune (cls : tokenizer_cls) (dataset_name : str) (ds : dataset)
    : result unit :=
  meta ← dict_getitem DATASET_METADATA dataset_name;
  train_and_evaluate cls meta ds.

(** The block under [if __name__ == '__main__'], from the [try]
    statement on, for the two positional arguments it reads. *)
Definition body (tokenizer_type dataset_name : str) : result unit :=
  dataset ← load tokenizer_type dataset_name;
  if negb (bool_decide (tokenizer_type ∈ keys TOKENIZER_CLS))
  then raise_stmt (AString (py "The tokenizer type `" ++ tokenizer_type
                               ++ py "`` is not supported"))
  else
    tokenizer_cls ← dict_getitem TOKENIZER_CLS tokenizer_type;
    finetune tokenizer_cls dataset_name dataset.

(** The script, run as a program: its imports, then the block. *)
Definition main (tokenizer_type dataset_name : str) : result unit :=
  _ ← imports;
  body tokenizer_type dataset_name.
End main.

End seq_cls_finetune.

(** ** Notions of the specification *)

(** How often [tok] occurs in a list of tokens. *)
Definition occurrences (tok : str) (words : list str) : nat :=
  length (filter (fun w => w = tok) words).

Section corpus.
Variable fs : filesystem.
Variable self : WordLevelTrainer.t.

(** The tokens of one input file, and of all of them in the order of
    [input_files] (a file listed twice is read twice). *)
Definition file_tokens (fname : str) : list str :=
  match fs fname with
  | Ok f => read_loop (WordLevelTrainer.pre_tokenize_func self) f []
  | Raise _ => []
  end.
Definition corpus : list str :=
  mjoin (file_tokens <$> WordLevelTrainer.input_files self).

(** The observed frequency of a token: its total count over all input
    files. *)
Definition observed (tok : str) : Z := Z.of_nat (occurrences tok corpus).
End corpus.

(** A counter as the builder makes them: distinct keys, positive counts. *)
Definition proper (c : Counter) : Prop :=
  NoDup (keys c) /\ Forall (fun kv => 0 < kv.2) c.

(** The sum of the counts of [tok] in a list of counters. *)
Definition total_count (tok : str) (counters : list Counter) : Z :=
  foldr (fun c acc => Counter_getitem c tok + acc) 0 counters.

(** Every input file can be opened and read. *)
Definition readable (fs : filesystem) (files : list str) : bool :=
  forallb (fun fname => match fs fname with Ok _ => true | Raise _ => false end) files.

(** The exception of the first file, in the given order, that cannot be
    opened or read. *)
Fixpoint first_failure (fs : filesystem) (files : list str) : option exn :=
  match files with
  | [] => None
  | fname :: files' =>
      match fs fname with
      | Raise e => Some e
      | Ok _ => first_failure fs files'
      end
  end.

(** The counter of the whole corpus, before the special tokens are taken
    out, and the entries that the builder puts first in [self.freq]. *)
Definition counted_all (fs : filesystem) (self : WordLevelTrainer.t) : Counter :=
  Counter_sum (Counter_new <$> (file_tokens fs self <$> WordLevelTrainer.input_files self)).
Definition special_part (fs : filesystem) (self : WordLevelTrainer.t) : list (str * Z) :=
  (fun tok => (tok, observed fs self tok)) <$> WordLevelTrainer.special_tokens self.

(** The state of the loop over the special tokens after the tokens [seen]:
    their counts are recorded, whatever else is not. *)
Definition recorded (ca0 : Counter) (seen : list str) (special_tok_freq : dict Z) : Prop :=
  forall tok, dict_get special_tok_freq tok
              = if decide (tok ∈ seen) then dict_get ca0 tok else None.

(** The indices of a vocabulary are exactly [0 .. n-1] for its [n]
    entries, none of them twice. *)
Definition dense_indices (vocab : dict nat) : Prop :=
  NoDup (values vocab) /\ forall i : nat, i ∈ values vocab <-> (i < length vocab)%nat.

(** The special tokens have the indices [0 .. k-1] in their declared order. *)
Definition specials_in_prefix (specials : list str) (vocab : dict nat) : Prop :=
  forall (i : nat) (tok : str), specials !! i = Some tok -> dict_get vocab tok = Some i.

(** The positions at which [build_inputs_with_special_tokens] puts a
    [cls] or [sep] token rather than an id of the given lists:
    [<s> X </s>] for one list, [<s> A </s></s> B </s>] for two. *)
Definition inserted_positions (token_ids_0 : list Z) (token_ids_1 : option (list Z))
    : list nat :=
  let n0 := length token_ids_0 in
  match token_ids_1 with
  | None => [0; n0 + 1]%nat
  | Some token_ids_1 =>
      let n1 := length token_ids_1 in
      [0; n0 + 1; n0 + 2; n0 + n1 + 3]%nat
  end.

(** The id that a token has of its own, as the base class looks for it:
    among the added tokens first, then in the vocabulary. *)
Definition own_id (self : ThaiWordsNewmmTokenizer.t) (token : str) : option Z :=
  match ThaiWordsNewmmTokenizer.added_tokens_encoder self !! token with
  | Some i => Some i
  | None => ThaiWordsNewmmTokenizer.tokenizer_model self !! token
  end.

(** An exception that is a value error or a lookup error. *)
Definition value_or_lookup_error (e : exn) : bool :=
  isinstance e ValueError || isinstance e LookupError.


(** The distinct tokens of a list, in the order of their first
    occurrence. *)
Definition add_new (acc : list str) (w : str) : list str :=
  if decide (w ∈ acc) then acc else acc ++ [w].
Definition distinct_in_order (ws : list str) : list str := fold_left add_new ws [].

(** A line as [count_one] hands it to the pre-tokenize function: not
    empty, without whitespace at either end. *)
Definition no_outer_whitespace (s : str) : Prop :=
  (forall c, head s = Some c -> is_whitespace c = false)
  /\ (forall c, last s = Some c -> is_whitespace c = false).

(** One word per character: a segmentation that covers the string. *)
Definition each_char (s : str) : list str := (fun c => [c]) <$> s.

(** The mark that [get_special_tokens_mask] gives an id of a sequence that
    is already formatted: 1 for the [sep] and the [cls] id, 0 otherwise. *)
Definition special_id_mark (self : ThaiWordsNewmmTokenizer.t) (x : Z) : Z :=
  if bool_decide (x ∈ [ThaiWordsNewmmTokenizer.sep_token_id self;
                       ThaiWordsNewmmTokenizer.cls_token_id self]) then 1 else 0.

(** A string of whitespace only (the empty string included). *)
Definition all_whitespace (s : str) : Prop := Forall (fun c => is_whitespace c = true) s.

(** The first character of [SPACE_TOKEN]. *)
Definition less_than_sign : char := 60%N.

(** The pre-tokenize function that keeps a line whole; with it the
    reading loop of [count_one] collects the lines it would tokenize. *)
Definition one_token (line : str) : list str := [line].

(** ** Sample inputs *)

(** A pre-tokenize function: the maximal runs without whitespace, as
    [str.split] gives them. *)
Definition ws_split_step (st : list str * str) (c : char) : list str * str :=
  if is_whitespace c
  then (if bool_decide (st.2 = []) then st.1 else st.1 ++ [st.2], [])
  else (st.1, st.2 ++ [c]).
Definition ws_split (s : str) : list str :=
  let st := fold_left ws_split_step s ([], []) in
  if bool_decide (st.2 = []) then st.1 else st.1 ++ [st.2].

(** Two files: a few lines of tokens, one of them blank, and a line of
    Thai words (U+0E01 U+0E32, U+0E21 U+0E32). *)
Definition sample_fs : filesystem := fun fname =>
  if decide (fname = py "corpus.txt")
  then Ok (py "b a <s> a" ++ [newline] ++ py "   " ++ [newline] ++ py "c b a" ++ [newline])
  else if decide (fname = py "thai.txt")
  then Ok ([3585; 3634; 32; 3617; 3634; 32; 3585; 3634; 10]%N)
  else Raise (open_FileNotFoundError fname).

Definition sample_files : list str := [py "corpus.txt"; py "thai.txt"].

Definition sample_trainer (specials : list str) (vocab_size vocab_min_freq : option Z)
    : WordLevelTrainer.t :=
  WordLevelTrainer.Build ws_split vocab_size specials sample_files None None
    vocab_min_freq true.

(** The vocabulary of the sample corpus for the special tokens [<s>],
    [<pad>] and a minimum frequency of 2. *)
Definition sample_specials : list str := [py "<s>"; py "<pad>"].
Definition sample_vocab : dict nat :=
  [ (py "<s>", 0%nat); (py "<pad>", 1%nat); (py "b", 2%nat); (py "a", 3%nat);
    ([3585; 3634]%N, 4%nat) ].

(** Two word-level tokenizers with [<unk>] as the unknown token and no
    added tokens: one whose vocabulary holds it, one whose vocabulary
    does not. *)
Definition sample_tokenizer : ThaiWordsNewmmTokenizer.t :=
  ThaiWordsNewmmTokenizer.Build {[ py "a" := 0; py "<unk>" := 1 ]} 2 3
    (Some (py "<unk>")) ∅.
Definition tokenizer_without_unk : ThaiWordsNewmmTokenizer.t :=
  ThaiWordsNewmmTokenizer.Build {[ py "a" := 0 ]} 2 3 (Some (py "<unk>")) ∅.

(** ** Properties of CustomPreTokenizer *)

Section split_facts.
Import CustomPreTokenizer.

Lemma slice_extends {A} (s : list A) (a b : nat) :
  (a <= b)%nat -> take a s ++ slice s a b = take b s.
Proof.
  intros Hab. unfold slice. rewrite take_take_drop. f_equal. lia.
Qed.

(** Invariant of the second loop: the segments cut so far concatenate
    to the first [last] characters, and [last] is a position already
    visited. *)
Lemma split_loop_inv (ns : str) (break_i : list nat) (rest : str) :
  forall (k : nat) (splits : list str) (last : nat),
    (last <= k)%nat ->
    concat splits = take last ns ->
    let st := fold_left (split_step ns break_i) (enumerate_from k rest) (splits, last) in
    concat st.1 = take st.2 ns.
Proof.
  induction rest as [|c rest IH]; intros k splits last Hle Hcat; simpl.
  - exact Hcat.
  - case_bool_decide.
    + apply IH; [lia|].
      rewrite concat_app. simpl. rewrite app_nil_r, Hcat.
      by apply slice_extends.
    + apply IH; [lia|done].
Qed.
End split_facts.

(** C8. For every input string and every pre-tokenize function, whatever
    list of words it returns, the segments returned by
    [CustomPreTokenizer.split] concatenate to the original string. *)
Theorem split_concat (pre_tokenize_func : str -> list str) (n : Z) (s : str) :
  concat (CustomPreTokenizer.split pre_tokenize_func n s) = s.
Proof.
  unfold CustomPreTokenizer.split.
  pose proof (split_loop_inv s
    (CustomPreTokenizer.break_points (pre_tokenize_func s)) s 0 [] 0) as Hinv.
  unfold enumerate.
  destruct (fold_left _ _ _) as [splits last].
  simpl in Hinv.
  rewrite concat_app. simpl. rewrite app_nil_r.
  rewrite Hinv by (lia || done).
  apply take_drop.
Qed.

(** The segments cut at the ends of the words [ab], [cd], [e]. *)
Example split_sample :
  CustomPreTokenizer.split ws_split 0 (py "ab cd e")
  = [py "ab"; py " c"; py "d"; py " e"].
Proof. vm_compute. reflexivity. Qed.

(** A word list that does not match the string still cuts it into
    segments that add up to it. *)
Example split_mismatch :
  CustomPreTokenizer.split (fun _ => [[]; py "cde"; py "a long word"]) 0 (py "ab cd e")
  = [[]; py "ab "; py "cd e"].
Proof. vm_compute. reflexivity. Qed.

(** ** Facts about dictionaries *)

Lemma filter_all {A} (P : A -> Prop) `{!forall x, Decision (P x)} (l : list A) :
  Forall P l -> filter P l = l.
Proof.
  induction 1 as [|x l Hx _ IH]; [done|].
  by rewrite filter_cons_True, IH.
Qed.

Section dict_facts.
Context {V : Type}.
Implicit Types (d : dict V) (k : str) (v : V).

Lemma dict_get_None d k : dict_get d k = None <-> k ∉ keys d.
Proof.
  induction d as [|[k' v'] d IH]; simpl.
  - split; [intros _; apply not_elem_of_nil|done].
  - rewrite not_elem_of_cons. case_decide; subst; [naive_solver|].
    rewrite IH. naive_solver.
Qed.

Lemma dict_get_Some_elem d k v : dict_get d k = Some v -> (k, v) ∈ d.
Proof.
  induction d as [|[k' v'] d IH]; simpl; [done|].
  case_decide; subst.
  - intros [= ->]. apply elem_of_cons; by left.
  - intros. apply elem_of_cons; right; auto.
Qed.

Lemma dict_elem_get d k v : NoDup (keys d) -> (k, v) ∈ d -> dict_get d k = Some v.
Proof.
  induction d as [|[k' v'] d IH]; simpl.
  - intros _ H; by apply elem_of_nil in H.
  - rewrite NoDup_cons. intros [Hk Hd] [[= -> ->]|Hin]%elem_of_cons.
    + by rewrite decide_True.
    + rewrite decide_False; [auto|].
      intros ->. apply Hk. apply list_elem_of_fmap. by exists (k, v).
Qed.

Lemma dict_contains_true d k : dict_contains d k = true <-> k ∈ keys d.
Proof.
  unfold dict_contains. destruct (dict_get d k) eqn:E.
  - split; [intros _|done].
    destruct (decide (k ∈ keys d)) as [|Hn]; [done|].
    apply dict_get_None in Hn. congruence.
  - apply dict_get_None in E. split; [done|]. intros; contradiction.
Qed.

Lemma dict_contains_false d k : dict_contains d k = false <-> k ∉ keys d.
Proof.
  rewrite <- dict_contains_true. destruct (dict_contains d k); naive_solver.
Qed.

Lemma dict_set_fresh d k v : k ∉ keys d -> dict_set d k v = d ++ [(k, v)].
Proof.
  induction d as [|[k' v'] d IH]; simpl; [done|].
  rewrite not_elem_of_cons. intros [Hne Hd].
  rewrite decide_False by done. by rewrite IH.
Qed.

Lemma keys_dict_set d k v :
  keys (dict_set d k v) = if dict_contains d k then keys d else keys d ++ [k].
Proof.
  unfold dict_contains.
  induction d as [|[k' v'] d IH]; simpl; [done|].
  case_decide; subst; simpl; [done|].
  rewrite IH. unfold keys. by destruct (dict_get d k).
Qed.

Lemma elem_of_keys_dict_set d k v k' :
  k' ∈ keys (dict_set d k v) <-> k' = k \/ k' ∈ keys d.
Proof.
  rewrite keys_dict_set. destruct (dict_contains d k) eqn:E.
  - apply dict_contains_true in E. naive_solver.
  - rewrite elem_of_app, list_elem_of_singleton. naive_solver.
Qed.

Lemma NoDup_keys_dict_set d k v : NoDup (keys d) -> NoDup (keys (dict_set d k v)).
Proof.
  intros Hd. rewrite keys_dict_set. destruct (dict_contains d k) eqn:E; [done|].
  apply dict_contains_false in E.
  apply NoDup_app. split_and!; [done| |apply NoDup_singleton].
  intros x Hx ->%list_elem_of_singleton. contradiction.
Qed.

Lemma dict_get_set d k v k' :
  dict_get (dict_set d k v) k' = if decide (k = k') then Some v else dict_get d k'.
Proof.
  induction d as [|[k0 v0] d IH]; simpl.
  - done.
  - destruct (decide (k0 = k)) as [->|Hne]; simpl.
    + by case_decide.
    + rewrite IH. repeat case_decide; congruence.
Qed.

Lemma values_dict_set_elem d k v x :
  x ∈ values (dict_set d k v) -> x = v \/ x ∈ values d.
Proof.
  induction d as [|[k0 v0] d IH]; simpl.
  - intros ->%list_elem_of_singleton. by left.
  - case_decide; simpl; rewrite !elem_of_cons; naive_solver.
Qed.

(** On a dictionary, deleting a key filters it out. *)
Lemma dict_del_filter d k :
  NoDup (keys d) -> dict_del d k = filter (fun kv => kv.1 ≠ k) d.
Proof.
  induction d as [|[k' v'] d IH]; [done|].
  change (keys ((k', v') :: d)) with (k' :: keys d).
  rewrite NoDup_cons. intros [Hk Hd].
  rewrite filter_cons. cbn [dict_del fst].
  destruct (decide (k' = k)) as [->|Hne].
  - rewrite decide_False by auto.
    symmetry. apply filter_all.
    apply Forall_forall. intros [k0 v0] Hin. cbn [fst]. intros ->.
    apply Hk. apply list_elem_of_fmap. by exists (k, v0).
  - rewrite decide_True by done. by rewrite IH.
Qed.

Lemma dict_get_filter (P : str -> Prop) `{!forall k, Decision (P k)} d k :
  dict_get (filter (fun kv => P kv.1) d) k = if decide (P k) then dict_get d k else None.
Proof.
  induction d as [|[k' v'] d IH].
  - cbn. by case_decide.
  - rewrite filter_cons. cbn [fst dict_get].
    destruct (decide (P k')) as [Hp|Hp]; cbn [dict_get].
    + destruct (decide (k' = k)) as [->|Hne]; [by rewrite decide_True|done].
    + rewrite IH.
      case_decide; [|done]. rewrite decide_False; [done|congruence].
Qed.

Lemma NoDup_keys_filter (P : str * V -> Prop) `{!forall kv, Decision (P kv)} d :
  NoDup (keys d) -> NoDup (keys (filter P d)).
Proof.
  intros Hd. unfold keys in *.
  eapply sublist_NoDup; [exact Hd|].
  apply fmap_sublist, sublist_filter.
Qed.

(** [dict(pairs)] is the list of pairs itself when the keys are distinct. *)
Lemma fold_dict_set_fresh (pairs : list (str * V)) d :
  NoDup (keys (d ++ pairs)) ->
  fold_left (fun d kv => dict_set d kv.1 kv.2) pairs d = d ++ pairs.
Proof.
  revert d. induction pairs as [|[k v] pairs IH]; intros d Hnd; simpl.
  - by rewrite app_nil_r.
  - rewrite dict_set_fresh.
    + rewrite IH; rewrite <- app_assoc; done.
    + unfold keys in Hnd. rewrite fmap_app in Hnd.
      apply NoDup_app in Hnd as (_ & Hdis & _).
      intros Hin. apply (Hdis k Hin). simpl. apply elem_of_cons; by left.
Qed.

Lemma dict_of_pairs_NoDup (pairs : list (str * V)) :
  NoDup (keys pairs) -> dict_of_pairs pairs = pairs.
Proof. intros. unfold dict_of_pairs. by rewrite fold_dict_set_fresh. Qed.

Lemma fold_dict_set_keys (pairs : list (str * V)) d k :
  k ∈ keys (fold_left (fun d kv => dict_set d kv.1 kv.2) pairs d)
  <-> k ∈ keys d \/ k ∈ keys pairs.
Proof.
  revert d. induction pairs as [|[k0 v0] pairs IH]; intros d; simpl.
  - rewrite elem_of_nil. naive_solver.
  - rewrite IH, elem_of_keys_dict_set, elem_of_cons. naive_solver.
Qed.

Lemma fold_dict_set_NoDup (pairs : list (str * V)) d :
  NoDup (keys d) ->
  NoDup (keys (fold_left (fun d kv => dict_set d kv.1 kv.2) pairs d)).
Proof.
  revert d. induction pairs as [|[k0 v0] pairs IH]; intros d Hd; simpl; [done|].
  apply IH. by apply NoDup_keys_dict_set.
Qed.

Lemma dict_of_pairs_keys (pairs : list (str * V)) k :
  k ∈ keys (dict_of_pairs pairs) <-> k ∈ keys pairs.
Proof.
  unfold dict_of_pairs. rewrite fold_dict_set_keys. simpl.
  rewrite elem_of_nil. naive_solver.
Qed.
End dict_facts.


(** ** Facts about counters *)

Section counter_facts.
Implicit Types (c : Counter) (k tok : str).

Lemma elem_of_dict_set {V} (d : dict V) k (v : V) (x : str * V) :
  x ∈ dict_set d k v -> x = (k, v) \/ x ∈ d.
Proof.
  induction d as [|[k0 v0] d IH]; simpl.
  - intros ->%list_elem_of_singleton. by left.
  - case_decide; subst; rewrite !elem_of_cons; naive_solver.
Qed.

Lemma Counter_getitem_set c k (v : Z) tok :
  Counter_getitem (dict_set c k v) tok
  = if decide (k = tok) then v else Counter_getitem c tok.
Proof. unfold Counter_getitem. rewrite dict_get_set. by case_decide. Qed.

Lemma proper_nil : proper [].
Proof. split; [apply NoDup_nil_2|apply Forall_nil_2]. Qed.

Lemma proper_set c k (v : Z) : proper c -> 0 < v -> proper (dict_set c k v).
Proof.
  intros [Hnd Hpos] Hv. split; [by apply NoDup_keys_dict_set|].
  apply Forall_forall. intros x [->|Hx]%elem_of_dict_set; [done|].
  by apply (proj1 (Forall_forall _ _) Hpos).
Qed.

Lemma proper_get_pos c k (v : Z) : proper c -> dict_get c k = Some v -> 0 < v.
Proof.
  intros [_ Hpos] Hget%dict_get_Some_elem.
  by apply (proj1 (Forall_forall _ _) Hpos) in Hget.
Qed.

Lemma proper_getitem_nonneg c k : proper c -> 0 <= Counter_getitem c k.
Proof.
  intros Hc. unfold Counter_getitem.
  destruct (dict_get c k) as [v|] eqn:E; simpl; [|lia].
  apply proper_get_pos in E; [lia|done].
Qed.

Lemma proper_contains c k :
  proper c -> dict_contains c k = true <-> 0 < Counter_getitem c k.
Proof.
  intros Hc. unfold dict_contains, Counter_getitem.
  destruct (dict_get c k) as [v|] eqn:E; simpl.
  - apply proper_get_pos in E; [|done]. split; [done|auto].
  - split; [done|lia].
Qed.

(** [Counter(iterable)] counts occurrences. *)
Lemma occurrences_cons tok (w : str) (ws : list str) :
  occurrences tok (w :: ws)
  = ((if decide (w = tok) then 1 else 0) + occurrences tok ws)%nat.
Proof. unfold occurrences. rewrite filter_cons. by case_decide. Qed.

Lemma occurrences_app tok (ws1 ws2 : list str) :
  occurrences tok (ws1 ++ ws2) = (occurrences tok ws1 + occurrences tok ws2)%nat.
Proof. unfold occurrences. by rewrite filter_app, length_app. Qed.

Lemma Counter_count_fold (ws : list str) :
  forall c, proper c ->
    proper (fold_left Counter_count ws c)
    /\ forall tok, Counter_getitem (fold_left Counter_count ws c) tok
                   = Counter_getitem c tok + Z.of_nat (occurrences tok ws).
Proof.
  induction ws as [|w ws IH]; intros c Hc; simpl.
  - split; [done|]. intros tok. unfold occurrences. simpl. lia.
  - assert (Hw : proper (Counter_count c w)).
    { apply proper_set; [done|].
      pose proof (proper_getitem_nonneg c w Hc) as Hge.
      unfold Counter_getitem in Hge. lia. }
    destruct (IH _ Hw) as [Hp Hget]. split; [done|].
    intros tok. rewrite Hget, occurrences_cons.
    unfold Counter_count. rewrite Counter_getitem_set.
    fold (Counter_getitem c w).
    case_decide; subst; lia.
Qed.

Lemma Counter_new_proper (ws : list str) : proper (Counter_new ws).
Proof. apply Counter_count_fold, proper_nil. Qed.

Lemma Counter_new_getitem (ws : list str) tok :
  Counter_getitem (Counter_new ws) tok = Z.of_nat (occurrences tok ws).
Proof.
  unfold Counter_new.
  rewrite (proj2 (Counter_count_fold ws [] proper_nil)). done.
Qed.

(** A loop that assigns [val ec] at the key of each item [ec] of a
    dictionary that passes [cond]. *)
Lemma fold_cond_set_get (cond : str * Z -> bool) (val : str * Z -> Z) (l : Counter) :
  forall (r : Counter) tok,
    NoDup (keys l) ->
    dict_get (fold_left (fun r ec => if cond ec then dict_set r ec.1 (val ec) else r) l r) tok
    = match dict_get l tok with
      | Some n => if cond (tok, n) then Some (val (tok, n)) else dict_get r tok
      | None => dict_get r tok
      end.
Proof.
  induction l as [|[k n] l IH]; intros r tok Hnd; [done|].
  change (keys ((k, n) :: l)) with (k :: keys l) in Hnd.
  apply NoDup_cons in Hnd as [Hk Hnd].
  cbn [fold_left dict_get fst]. rewrite IH by done.
  destruct (decide (k = tok)) as [->|Hne].
  - apply dict_get_None in Hk. rewrite Hk.
    destruct (cond (tok, n)); [|done].
    rewrite dict_get_set. by rewrite decide_True.
  - destruct (cond (k, n)); [|done].
    rewrite dict_get_set, decide_False by done. done.
Qed.

Lemma fold_cond_set_proper (cond : str * Z -> bool) (val : str * Z -> Z) (l : Counter) :
  forall r : Counter,
    (forall ec, ec ∈ l -> cond ec = true -> 0 < val ec) ->
    proper r ->
    proper (fold_left (fun r ec => if cond ec then dict_set r ec.1 (val ec) else r) l r).
Proof.
  induction l as [|ec l IH]; intros r Hval Hr; [done|].
  cbn [fold_left]. apply IH.
  - intros ec' Hin. apply Hval. apply elem_of_cons; by right.
  - destruct (cond ec) eqn:E; [|done].
    apply proper_set; [done|]. apply Hval; [apply elem_of_cons; by left|done].
Qed.
End counter_facts.


Section counter_sum_facts.
Implicit Types (a b c : Counter) (tok : str).

Lemma Counter_add_get a b tok :
  proper a -> proper b ->
  dict_get (Counter_add a b) tok
  = match dict_get a tok, dict_get b tok with
    | Some n, _ => Some (n + Counter_getitem b tok)
    | None, Some m => Some m
    | None, None => None
    end.
Proof.
  intros Ha Hb. unfold Counter_add.
  rewrite (fold_cond_set_get
             (fun ec => negb (dict_contains a ec.1) && (0 <? ec.2))
             (fun ec => ec.2) b) by apply Hb.
  rewrite (fold_cond_set_get
             (fun ec => 0 <? ec.2 + Counter_getitem b ec.1)
             (fun ec => ec.2 + Counter_getitem b ec.1) a) by apply Ha.
  cbn [fst snd dict_get].
  pose proof (proper_getitem_nonneg b tok Hb) as Hbt.
  unfold dict_contains.
  destruct (dict_get a tok) as [n|] eqn:Ea, (dict_get b tok) as [m|] eqn:Eb;
    cbn [negb andb].
  - apply proper_get_pos in Ea; [|done].
    destruct (Z.ltb_spec 0 (n + Counter_getitem b tok)); [done|lia].
  - apply proper_get_pos in Ea; [|done].
    destruct (Z.ltb_spec 0 (n + Counter_getitem b tok)); [done|lia].
  - apply proper_get_pos in Eb; [|done].
    destruct (Z.ltb_spec 0 m); [done|lia].
  - done.
Qed.

Lemma Counter_add_getitem a b tok :
  proper a -> proper b ->
  Counter_getitem (Counter_add a b) tok = Counter_getitem a tok + Counter_getitem b tok.
Proof.
  intros Ha Hb. unfold Counter_getitem at 1 2.
  rewrite Counter_add_get by done.
  destruct (dict_get a tok) as [n|]; [done|].
  unfold Counter_getitem. by destruct (dict_get b tok).
Qed.

Lemma Counter_add_proper a b : proper a -> proper b -> proper (Counter_add a b).
Proof.
  intros Ha Hb. unfold Counter_add.
  apply (fold_cond_set_proper
           (fun ec => negb (dict_contains a ec.1) && (0 <? ec.2))
           (fun ec => ec.2) b).
  - intros ec _ [_ Hpos%Z.ltb_lt]%andb_prop. done.
  - apply (fold_cond_set_proper
             (fun ec => 0 <? ec.2 + Counter_getitem b ec.1)
             (fun ec => ec.2 + Counter_getitem b ec.1) a).
    + by intros ec _ Hpos%Z.ltb_lt.
    + apply proper_nil.
Qed.

Lemma Counter_sum_fold (counters : list Counter) :
  forall acc : Counter,
    Forall proper counters -> proper acc ->
    proper (fold_left Counter_add counters acc)
    /\ forall tok, Counter_getitem (fold_left Counter_add counters acc) tok
                   = Counter_getitem acc tok + total_count tok counters.
Proof.
  induction counters as [|c counters IH]; intros acc Hcs Hacc; simpl.
  - split; [done|intros; lia].
  - apply Forall_cons in Hcs as [Hc Hcs].
    destruct (IH (Counter_add acc c) Hcs (Counter_add_proper _ _ Hacc Hc)) as [Hp Hget].
    split; [done|]. intros tok.
    rewrite Hget, Counter_add_getitem by done. lia.
Qed.

Lemma Counter_sum_proper (counters : list Counter) :
  Forall proper counters -> proper (Counter_sum counters).
Proof. intros H. by apply Counter_sum_fold; [|apply proper_nil]. Qed.

Lemma Counter_sum_getitem (counters : list Counter) tok :
  Forall proper counters ->
  Counter_getitem (Counter_sum counters) tok = total_count tok counters.
Proof.
  intros H. unfold Counter_sum.
  rewrite (proj2 (Counter_sum_fold counters [] H proper_nil)). done.
Qed.

Lemma total_count_new tok (tokens : list (list str)) :
  total_count tok (Counter_new <$> tokens) = Z.of_nat (occurrences tok (mjoin tokens)).
Proof.
  induction tokens as [|ws tokens IH]; [done|].
  cbn [fmap list_fmap total_count foldr mjoin list_join].
  fold (total_count tok (Counter_new <$> tokens)).
  rewrite IH, Counter_new_getitem, occurrences_app.
  by rewrite Nat2Z.inj_add.
Qed.
End counter_sum_facts.


(** ** Facts about the vocabulary builder *)

Lemma filter_ext_in {A} (P Q : A -> Prop)
    `{!forall x, Decision (P x)} `{!forall x, Decision (Q x)} (l : list A) :
  (forall x, x ∈ l -> P x <-> Q x) -> filter P l = filter Q l.
Proof.
  induction l as [|x l IH]; intros Hext; [done|].
  rewrite !filter_cons.
  assert (Hx : P x <-> Q x) by (apply Hext, elem_of_cons; by left).
  rewrite IH by (intros y Hy; apply Hext, elem_of_cons; by right).
  destruct (decide (P x)), (decide (Q x)); naive_solver.
Qed.

Section builder_facts.
Import WordLevelTrainer.
Variable fs : filesystem.
Variable self : WordLevelTrainer.t.

(** The files are readable exactly when none of them fails. *)
Lemma readable_first_failure (files : list str) :
  readable fs files
  = match first_failure fs files with None => true | Some _ => false end.
Proof.
  induction files as [|fname files IH]; [done|].
  cbn [readable forallb first_failure]. by destruct (fs fname).
Qed.

Lemma for_each_count_one (files : list str) :
  for_each (count_one fs self) files
  = match first_failure fs files with
    | None => Ok (Counter_new <$> (file_tokens fs self <$> files))
    | Some e => Raise e
    end.
Proof.
  induction files as [|fname files IH]; [done|].
  change (for_each (count_one fs self) (fname :: files))
    with (count_one fs self fname
          ≫= fun y => for_each (count_one fs self) files
          ≫= fun ys => mret (y :: ys)).
  cbn [first_failure].
  assert (Hone : count_one fs self fname
                 = match fs fname with
                   | Ok _ => Ok (Counter_new (file_tokens fs self fname))
                   | Raise e => Raise e
                   end).
  { unfold count_one, file_tokens. by destruct (fs fname). }
  rewrite Hone. destruct (fs fname) as [f|e]; [|done].
  cbn [mbind result_bind]. rewrite IH.
  by destruct (first_failure fs files).
Qed.

Lemma counted_all_proper : proper (counted_all fs self).
Proof.
  apply Counter_sum_proper, Forall_fmap, Forall_forall.
  intros ws _. apply Counter_new_proper.
Qed.

Lemma counted_all_getitem (tok : str) :
  Counter_getitem (counted_all fs self) tok = observed fs self tok.
Proof.
  unfold counted_all. rewrite Counter_sum_getitem.
  - by rewrite total_count_new.
  - apply Forall_fmap, Forall_forall. intros ws _. apply Counter_new_proper.
Qed.

Lemma take_special_step (ca0 : Counter) (seen : list str) (stf : dict Z) (tok : str) :
  NoDup (keys ca0) -> recorded ca0 seen stf ->
  exists stf',
    take_special (stf, filter (fun kv => kv.1 ∉ seen) ca0) tok
    = (stf', filter (fun kv => kv.1 ∉ seen ++ [tok]) ca0)
    /\ recorded ca0 (seen ++ [tok]) stf'.
Proof.
  intros Hnd Hrec. unfold take_special, dict_contains, Counter_getitem.
  pose proof (dict_get_filter (fun k => k ∉ seen) ca0 tok) as Hget.
  cbn beta in Hget. rewrite !Hget. clear Hget.
  destruct (decide (tok ∉ seen)) as [Hns|Hs]; [destruct (dict_get ca0 tok) as [v|] eqn:E0|].
  - eexists; split.
    + f_equal. rewrite dict_del_filter by by apply NoDup_keys_filter.
      rewrite list_filter_filter. apply filter_ext_in.
      intros [k n] _. cbn [fst]. rewrite not_elem_of_app, list_elem_of_singleton.
      naive_solver.
    + intros t. cbn [default]. rewrite dict_get_set, Hrec.
      destruct (decide (tok = t)) as [<-|Hne].
      * rewrite decide_True; [done|]. apply elem_of_app; right. by apply list_elem_of_singleton.
      * destruct (decide (t ∈ seen)) as [Hts|Hts].
        -- rewrite decide_True; [done|]. apply elem_of_app; by left.
        -- rewrite decide_False; [done|].
           rewrite elem_of_app, list_elem_of_singleton. naive_solver.
  - exists stf; split.
    + f_equal. apply filter_ext_in.
      intros [k n] Hin. cbn [fst]. rewrite not_elem_of_app, list_elem_of_singleton.
      split; [|naive_solver]. intros Hk; split; [done|]. intros ->.
      apply dict_get_None in E0. apply E0, list_elem_of_fmap. by exists (tok, n).
    + intros t. rewrite Hrec.
      destruct (decide (t ∈ seen)) as [Hts|Hts].
      * rewrite decide_True; [done|]. apply elem_of_app; by left.
      * destruct (decide (t ∈ seen ++ [tok])) as [Hin|]; [|done].
        apply elem_of_app in Hin as [Hin| ->%list_elem_of_singleton]; [done|].
        by rewrite E0.
  - assert (Hin : tok ∈ seen) by (destruct (decide (tok ∈ seen)); [done|contradiction]).
    exists stf; split.
    + f_equal. apply filter_ext_in.
      intros [k n] _. cbn [fst]. rewrite not_elem_of_app, list_elem_of_singleton.
      naive_solver.
    + intros t. rewrite Hrec.
      destruct (decide (t ∈ seen)) as [Hts|Hts].
      * rewrite decide_True; [done|]. apply elem_of_app; by left.
      * rewrite decide_False; [done|].
        rewrite elem_of_app, list_elem_of_singleton. naive_solver.
Qed.

Lemma take_special_fold (ca0 : Counter) (rest : list str) :
  NoDup (keys ca0) ->
  forall (seen : list str) (stf : dict Z),
    recorded ca0 seen stf ->
    exists stf',
      fold_left take_special rest (stf, filter (fun kv => kv.1 ∉ seen) ca0)
      = (stf', filter (fun kv => kv.1 ∉ seen ++ rest) ca0)
      /\ recorded ca0 (seen ++ rest) stf'.
Proof.
  intros Hnd. induction rest as [|tok rest IH]; intros seen stf Hrec.
  - rewrite app_nil_r. by exists stf.
  - destruct (take_special_step ca0 seen stf tok Hnd Hrec) as (stf1 & Hstep & Hrec1).
    cbn [fold_left]. rewrite Hstep.
    destruct (IH _ _ Hrec1) as (stf2 & Hfold & Hrec2).
    rewrite <- app_assoc in Hfold, Hrec2.
    by exists stf2.
Qed.

Lemma items_at_least_Some (items : list (str * Z)) (m : Z) :
  items_at_least items (Some m) = Ok (filter (fun kv => m <= kv.2) items).
Proof.
  induction items as [|[k v] items IH]; [done|].
  cbn [items_at_least int_ge mbind result_bind]. rewrite IH.
  cbn [mbind result_bind mret result_ret]. rewrite filter_cons. cbn [snd].
  destruct (Z.leb_spec m v); [by rewrite decide_True|by rewrite decide_False by lia].
Qed.

Lemma items_at_least_sublist (items kept : list (str * Z)) (bound : option Z) :
  items_at_least items bound = Ok kept -> kept `sublist_of` items.
Proof.
  destruct bound as [m|].
  - rewrite items_at_least_Some. intros [= <-]. apply sublist_filter.
  - destruct items as [|[k v] items]; [by intros [= <-]|done].
Qed.
End builder_facts.


(** ** From the frequency list to the vocabulary *)

Section index_facts.
Import WordLevelTrainer.

Lemma enumerate_from_lookup {A} (l : list A) (start i : nat) :
  enumerate_from start l !! i = (fun x => ((start + i)%nat, x)) <$> l !! i.
Proof.
  revert start i. induction l as [|x l IH]; intros start i; [done|].
  destruct i as [|i]; cbn [enumerate_from].
  - cbn. by rewrite Nat.add_0_r.
  - cbn. rewrite IH.
    destruct (l !! i); cbn; [|done]. do 2 f_equal. lia.
Qed.

Lemma enumerate_from_length {A} (l : list A) (start : nat) :
  length (enumerate_from start l) = length l.
Proof. revert start. induction l; intros; cbn; [done|]. by f_equal. Qed.

Lemma indexed_keys (freq : list (str * Z)) (start : nat) :
  keys ((fun ic : nat * (str * Z) => ((ic.2).1, ic.1)) <$> enumerate_from start freq)
  = keys freq.
Proof.
  revert start. induction freq as [|[k n] freq IH]; intros start; [done|].
  cbn. f_equal. apply IH.
Qed.

Lemma indexed_values (freq : list (str * Z)) (start : nat) :
  values ((fun ic : nat * (str * Z) => ((ic.2).1, ic.1)) <$> enumerate_from start freq)
  = seq start (length freq).
Proof.
  revert start. induction freq as [|[k n] freq IH]; intros start; [done|].
  cbn. f_equal. apply IH.
Qed.

(** With distinct keys the vocabulary lists the tokens of the frequency
    list in order, each with its position. *)
Lemma index_vocab_NoDup (freq : list (str * Z)) :
  NoDup (keys freq) ->
  index_vocab freq = (fun ic : nat * (str * Z) => ((ic.2).1, ic.1)) <$> enumerate freq.
Proof.
  intros Hnd. unfold index_vocab. apply dict_of_pairs_NoDup.
  unfold enumerate. by rewrite indexed_keys.
Qed.

Lemma index_vocab_get (freq : list (str * Z)) (i : nat) (tok : str) (n : Z) :
  NoDup (keys freq) -> freq !! i = Some (tok, n) ->
  dict_get (index_vocab freq) tok = Some i.
Proof.
  intros Hnd Hi. rewrite index_vocab_NoDup by done.
  apply dict_elem_get.
  - unfold enumerate. by rewrite indexed_keys.
  - apply list_elem_of_lookup. exists i.
    rewrite list_lookup_fmap. unfold enumerate.
    rewrite enumerate_from_lookup, Hi. done.
Qed.

Lemma index_vocab_dense (freq : list (str * Z)) :
  NoDup (keys freq) -> dense_indices (index_vocab freq).
Proof.
  intros Hnd. rewrite index_vocab_NoDup by done. unfold dense_indices, enumerate.
  rewrite indexed_values, length_fmap, enumerate_from_length.
  split; [apply NoDup_seq|].
  intros i. rewrite elem_of_seq. lia.
Qed.

Lemma index_vocab_contains (freq : list (str * Z)) (tok : str) :
  is_Some (dict_get (index_vocab freq) tok) <-> tok ∈ keys freq.
Proof.
  unfold index_vocab. rewrite <- not_eq_None_Some, dict_get_None, dict_of_pairs_keys.
  unfold enumerate. rewrite indexed_keys.
  split; [|auto]. intros H. by destruct (decide (tok ∈ keys freq)).
Qed.
End index_facts.

Section count_freq_facts.
Import WordLevelTrainer.
Variable fs : filesystem.
Variable self : WordLevelTrainer.t.

(** What [count_freq] computes, without the loops. *)
Lemma count_freq_eq :
  count_freq fs self
  = match first_failure fs (input_files self) with
    | None =>
      match vocab_size self with
      | Some _ => Raise concat_TypeError
      | None =>
          kept ← items_at_least
                   (filter (fun kv => kv.1 ∉ special_tokens self) (counted_all fs self))
                   (vocab_min_freq self);
          mret (special_part fs self ++ kept)
      end
    | Some e => Raise e
    end.
Proof.
  unfold count_freq. rewrite for_each_count_one.
  destruct (first_failure fs (input_files self)); [done|].
  cbn [mbind result_bind]. fold (counted_all fs self).
  pose proof (counted_all_proper fs self) as [Hnd Hpos].
  destruct (take_special_fold (counted_all fs self) (special_tokens self) Hnd [] [])
    as (stf & Hfold & Hrec).
  { intros tok. cbn. by rewrite decide_False by apply not_elem_of_nil. }
  rewrite filter_all in Hfold
    by (apply Forall_forall; intros; apply not_elem_of_nil).
  rewrite Hfold. cbn [app] in *.
  assert (Hpart : (fun tok => (tok, default 0 (dict_get stf tok))) <$> special_tokens self
                  = special_part fs self).
  { unfold special_part. apply list_fmap_ext. intros i tok Hi.
    rewrite Hrec, decide_True by (by eapply list_elem_of_lookup_2).
    f_equal. apply counted_all_getitem. }
  rewrite Hpart.
  destruct (vocab_size self); [done|].
  destruct (items_at_least _ _); done.
Qed.

(** When [count_freq] returns, it returns the special tokens with their
    observed frequencies, followed by retained items of the counter whose
    keys are distinct and not special. *)
Lemma count_freq_Ok (freq : list (str * Z)) :
  count_freq fs self = Ok freq ->
  readable fs (input_files self) = true /\ vocab_size self = None
  /\ exists kept,
       items_at_least
         (filter (fun kv => kv.1 ∉ special_tokens self) (counted_all fs self))
         (vocab_min_freq self) = Ok kept
       /\ freq = special_part fs self ++ kept
       /\ NoDup (keys kept)
       /\ (forall k, k ∈ keys kept -> k ∉ special_tokens self).
Proof.
  rewrite count_freq_eq, readable_first_failure.
  destruct (first_failure fs (input_files self)); [done|].
  destruct (vocab_size self); [done|].
  destruct (items_at_least _ _) as [kept|] eqn:Ekept; [|done].
  intros [= <-]. split_and!; [done..|]. exists kept.
  apply items_at_least_sublist in Ekept.
  split_and!; [done..| |].
  - eapply sublist_NoDup; [|by apply fmap_sublist].
    apply (NoDup_keys_filter (fun kv => kv.1 ∉ special_tokens self)).
    apply counted_all_proper.
  - intros k (kv & -> & Hin)%list_elem_of_fmap.
    eapply elem_of_sublist in Hin; [|done].
    by apply list_elem_of_filter in Hin as [? _].
Qed.

Lemma special_part_keys : keys (special_part fs self) = special_tokens self.
Proof.
  unfold special_part, keys. rewrite <- list_fmap_compose.
  apply list_fmap_id.
Qed.

Lemma special_part_lookup (i : nat) (tok : str) :
  special_tokens self !! i = Some tok ->
  special_part fs self !! i = Some (tok, observed fs self tok).
Proof. intros Hi. unfold special_part. by rewrite list_lookup_fmap, Hi. Qed.

Lemma freq_keys_NoDup (kept : list (str * Z)) :
  NoDup (special_tokens self) -> NoDup (keys kept) ->
  (forall k, k ∈ keys kept -> k ∉ special_tokens self) ->
  NoDup (keys (special_part fs self ++ kept)).
Proof.
  intros Hs Hk Hdis. unfold keys. rewrite fmap_app. apply NoDup_app.
  fold (keys (special_part fs self)). rewrite special_part_keys.
  split_and!; [done| |done].
  intros k Hin Hin'. by apply (Hdis k).
Qed.
End count_freq_facts.


(** ** What a returned vocabulary is made of *)

Section count_parallel_facts.
Import WordLevelTrainer.
Variable fs : filesystem.
Variable self : WordLevelTrainer.t.

Lemma count_parallel_Ok (nb_cores : Z) (vocab : dict nat) (self' : t) :
  count_parallel fs self nb_cores = (Ok vocab, self') ->
  exists fr, count_freq fs self = Ok fr
             /\ vocab = index_vocab fr
             /\ freq self' = Some fr
             /\ WordLevelTrainer.vocab self' = Some vocab.
Proof.
  unfold count_parallel. destruct (count_freq fs self) as [fr|e]; [|done].
  intros [= <- <-]. by exists fr.
Qed.

Lemma counted_all_elem (tok : str) (n : Z) :
  (tok, n) ∈ counted_all fs self <-> n = observed fs self tok /\ 0 < n.
Proof.
  pose proof (counted_all_proper fs self) as Hproper.
  rewrite <- counted_all_getitem. split.
  - intros Hin. apply dict_elem_get in Hin; [|apply Hproper].
    split; [unfold Counter_getitem; by rewrite Hin|].
    by eapply proper_get_pos.
  - intros [-> Hpos]. apply dict_get_Some_elem.
    unfold Counter_getitem in *.
    destruct (dict_get (counted_all fs self) tok); [done|cbn in Hpos; lia].
Qed.

Lemma special_part_length : length (special_part fs self) = length (special_tokens self).
Proof. unfold special_part. apply length_fmap. Qed.

(** The special tokens come first in the frequency list, each with its
    observed frequency; when they are distinct, the vocabulary gives each
    of them its position. *)
Lemma specials_first (fr : list (str * Z)) :
  count_freq fs self = Ok fr ->
  (forall i tok, special_tokens self !! i = Some tok ->
                 fr !! i = Some (tok, observed fs self tok))
  /\ (NoDup (special_tokens self) ->
      NoDup (keys fr) /\ specials_in_prefix (special_tokens self) (index_vocab fr)).
Proof.
  intros (_ & _ & kept & _ & -> & Hnd & Hdis)%count_freq_Ok.
  assert (Hfirst : forall i tok, special_tokens self !! i = Some tok ->
                     (special_part fs self ++ kept) !! i = Some (tok, observed fs self tok)).
  { intros i tok Hi. rewrite lookup_app_l.
    - by apply special_part_lookup.
    - rewrite special_part_length. by eapply lookup_lt_Some. }
  split; [done|]. intros Hs.
  assert (Hkeys : NoDup (keys (special_part fs self ++ kept)))
    by by apply freq_keys_NoDup.
  split; [done|]. intros i tok Hi.
  eapply index_vocab_get; [done|by apply Hfirst].
Qed.
End count_parallel_facts.

(** ** The constructor and the size cutoff *)

(** C3. Constructing the trainer with both [vocab_size] and
    [vocab_min_freq] given raises an [AttributeError]; with at most one of
    them given the constructor returns the trainer. *)
Theorem init_raises_iff_both_cutoffs (pre_tokenize_func : str -> list str)
    (input_files additional_special_tokens : list str)
    (vocab_size vocab_min_freq : option Z) (progress : bool) :
  let made := WordLevelTrainer.__init__ pre_tokenize_func input_files
                additional_special_tokens vocab_size vocab_min_freq progress in
  (vocab_size <> None /\ vocab_min_freq <> None ->
     exists e, made = Raise e /\ exn_class e = AttributeError)
  /\ (~ (vocab_size <> None /\ vocab_min_freq <> None) ->
     exists self, made = Ok self
       /\ WordLevelTrainer.vocab_size self = vocab_size
       /\ WordLevelTrainer.vocab_min_freq self = vocab_min_freq
       /\ WordLevelTrainer.special_tokens self = additional_special_tokens
       /\ WordLevelTrainer.input_files self = input_files).
Proof.
  cbv zeta. unfold WordLevelTrainer.__init__.
  destruct vocab_size as [n|], vocab_min_freq as [m|]; cbn.
  - split; [intros _; by eexists|]. intros H. exfalso. apply H. by split.
  - split; [by intros [_ ?]|]. intros _. by eexists.
  - split; [by intros [? _]|]. intros _. by eexists.
  - split; [by intros [? _]|]. intros _. by eexists.
Qed.

(** C1, as the code behaves: with [vocab_size] given, the result of
    [most_common] is dropped, the counter itself reaches the list
    concatenation, and [count_parallel] raises a [TypeError] for every
    corpus whose files can be read (for the others, the exception of the
    first file that cannot); it never returns a vocabulary. *)
Theorem count_parallel_vocab_size_raises (fs : filesystem)
    (pre_tokenize_func : str -> list str) (input_files specials : list str)
    (n : Z) (progress : bool) (nb_cores : Z) :
  exists self,
    WordLevelTrainer.__init__ pre_tokenize_func input_files specials (Some n) None progress
    = Ok self
    /\ WordLevelTrainer.count_parallel fs self nb_cores
       = (Raise (match first_failure fs input_files with
                 | None => concat_TypeError
                 | Some e => e
                 end), self)
    /\ (readable fs input_files = true -> first_failure fs input_files = None).
Proof.
  eexists. split; [reflexivity|]. split.
  - unfold WordLevelTrainer.count_parallel. rewrite count_freq_eq.
    cbn [WordLevelTrainer.input_files WordLevelTrainer.vocab_size].
    by destruct (first_failure fs input_files).
  - rewrite readable_first_failure. by destruct (first_failure fs input_files).
Qed.

(** The failing input of C1: two tokens counted, a size cutoff of one. *)
Example vocab_size_failing_input :
  (WordLevelTrainer.count_parallel sample_fs
     (sample_trainer [py "<s>"; py "<pad>"] (Some 2) None) 1).1
  = Raise concat_TypeError.
Proof. vm_compute. reflexivity. Qed.

(** ** Determinism *)

(** C7. Running [count_parallel] again on the trainer that the first run
    left behind, with the same files and the same pre-tokenize function,
    gives the same result (the same vocabulary, token for token and index
    for index, or the same exception) and leaves the same trainer. *)
Theorem count_parallel_deterministic (fs : filesystem) (self : WordLevelTrainer.t)
    (nb_cores nb_cores' : Z) :
  WordLevelTrainer.count_parallel fs
    (WordLevelTrainer.count_parallel fs self nb_cores).2 nb_cores'
  = WordLevelTrainer.count_parallel fs self nb_cores.
Proof.
  unfold WordLevelTrainer.count_parallel at 2 3.
  destruct (WordLevelTrainer.count_freq fs self) as [freq|e] eqn:E; cbn [snd].
  - unfold WordLevelTrainer.count_parallel.
    assert (E' : WordLevelTrainer.count_freq fs
                   {| WordLevelTrainer.pre_tokenize_func := WordLevelTrainer.pre_tokenize_func self;
                      WordLevelTrainer.vocab_size := WordLevelTrainer.vocab_size self;
                      WordLevelTrainer.special_tokens := WordLevelTrainer.special_tokens self;
                      WordLevelTrainer.input_files := WordLevelTrainer.input_files self;
                      WordLevelTrainer.vocab := Some (WordLevelTrainer.index_vocab freq);
                      WordLevelTrainer.freq := Some freq;
                      WordLevelTrainer.vocab_min_freq := WordLevelTrainer.vocab_min_freq self;
                      WordLevelTrainer.progress := WordLevelTrainer.progress self |}
                 = Ok freq) by exact E.
    rewrite E'. reflexivity.
  - unfold WordLevelTrainer.count_parallel. by rewrite E.
Qed.

(** ** The word-level tokenizer *)

Section unknown_token.
Import ThaiWordsNewmmTokenizer.
Variable self : ThaiWordsNewmmTokenizer.t.

(** A token that is in the vocabulary needs one frame. *)
Lemma convert_known (depth : nat) (token : str) (i : Z) :
  tokenizer_model self !! token = Some i ->
  _convert_token_to_id (S depth) self token = Ok (Some i).
Proof. intros Hi. cbn. unfold token_to_id. by rewrite Hi. Qed.

(** The unknown token, when it has an id of its own, is found in at most
    four frames. *)
Lemma unk_token_id_own (depth : nat) (unk : str) (u : Z) :
  unk_token self = Some unk ->
  own_id self unk = Some u ->
  unk_token_id (4 + depth) self = Ok (Some u).
Proof.
  intros Hunk Hown. cbn. rewrite Hunk. unfold own_id in Hown.
  destruct (added_tokens_encoder self !! unk) as [i|]; [by injection Hown as ->|].
  unfold token_to_id. by rewrite Hown.
Qed.

(** Without an id of its own the unknown token is looked for again and
    again: each of the four methods ends in a [RecursionError], whatever
    the depth it starts at. *)
Lemma unk_token_recursion (unk : str) :
  unk_token self = Some unk ->
  own_id self unk = None ->
  forall depth,
    _convert_token_to_id depth self unk = Raise depth_RecursionError
    /\ unk_token_id depth self = Raise depth_RecursionError
    /\ convert_tokens_to_ids depth self unk = Raise depth_RecursionError
    /\ _convert_token_to_id_with_added_voc depth self unk = Raise depth_RecursionError.
Proof.
  intros Hunk Hown. unfold own_id in Hown.
  destruct (added_tokens_encoder self !! unk) as [i|] eqn:Hadded; [done|].
  induction depth as [|depth (IH1 & IH2 & IH3 & IH4)]; [done|].
  cbn. unfold token_to_id. rewrite Hown, Hunk, Hadded. done.
Qed.

Lemma convert_unknown_recursion (unk token : str) (depth : nat) :
  unk_token self = Some unk ->
  own_id self unk = None ->
  tokenizer_model self !! token = None ->
  _convert_token_to_id depth self token = Raise depth_RecursionError.
Proof.
  intros Hunk Hown Htok. destruct depth as [|depth]; [done|].
  cbn. unfold token_to_id. rewrite Htok.
  by apply (unk_token_recursion unk Hunk Hown).
Qed.
End unknown_token.

(** C9, as the code behaves. Given the five frames that the longest path
    takes, [_convert_token_to_id] returns the index of the vocabulary for
    a token that is in it; for every other token it returns the id of the
    unknown token, which is what [unk_token_id] returns, when the unknown
    token is set and has an id of its own (among the added tokens or in
    the vocabulary). *)
Theorem convert_token_to_id_total (self : ThaiWordsNewmmTokenizer.t)
    (token : str) (depth : nat) :
  (5 <= depth)%nat ->
  (forall i,
     ThaiWordsNewmmTokenizer.tokenizer_model self !! token = Some i ->
     ThaiWordsNewmmTokenizer._convert_token_to_id depth self token = Ok (Some i))
  /\ (forall unk u,
        ThaiWordsNewmmTokenizer.unk_token self = Some unk ->
        own_id self unk = Some u ->
        ThaiWordsNewmmTokenizer.tokenizer_model self !! token = None ->
        ThaiWordsNewmmTokenizer._convert_token_to_id depth self token = Ok (Some u)
        /\ ThaiWordsNewmmTokenizer.unk_token_id depth self = Ok (Some u)).
Proof.
  intros Hdepth.
  destruct depth as [|[|[|[|[|depth]]]]]; [lia..|].
  split.
  - intros i Htok. by apply convert_known.
  - intros unk u Hunk Hown Htok. split.
    + change (ThaiWordsNewmmTokenizer._convert_token_to_id (S (S (S (S (S depth))))) self token)
        with (match ThaiWordsNewmmTokenizer.token_to_id self token with
              | None => ThaiWordsNewmmTokenizer.unk_token_id (4 + depth) self
              | Some i => Ok (Some i)
              end).
      unfold ThaiWordsNewmmTokenizer.token_to_id. rewrite Htok.
      by apply (unk_token_id_own self depth unk).
    + by apply (unk_token_id_own self (S depth) unk).
Qed.

(** The vocabulary [{a: 0, <unk>: 1}]: [a] gets its index, [b] the id of
    [<unk>]. *)
Lemma convert_token_to_id_total_witness :
  ThaiWordsNewmmTokenizer._convert_token_to_id 1000 sample_tokenizer (py "a")
  = Ok (Some 0)
  /\ ThaiWordsNewmmTokenizer._convert_token_to_id 1000 sample_tokenizer (py "b")
     = Ok (Some 1)
  /\ ThaiWordsNewmmTokenizer.unk_token_id 1000 sample_tokenizer = Ok (Some 1).
Proof.
  split.
  - apply (proj1 (convert_token_to_id_total sample_tokenizer (py "a") 1000
                    ltac:(lia)) 0).
    vm_compute. reflexivity.
  - apply (proj2 (convert_token_to_id_total sample_tokenizer (py "b") 1000
                    ltac:(lia)) (py "<unk>") 1).
    + reflexivity.
    + vm_compute. reflexivity.
    + vm_compute. reflexivity.
Defined.

(** The claim as it stands fails for a vocabulary without the unknown
    token: [b] is not in [{a: 0}], and neither is [<unk>], so the call
    ends in a [RecursionError] at every depth, 1000 frames among them. *)
Lemma convert_token_to_id_counterexample :
  ThaiWordsNewmmTokenizer.tokenizer_model tokenizer_without_unk !! py "b" = None
  /\ (forall depth,
        ThaiWordsNewmmTokenizer._convert_token_to_id depth tokenizer_without_unk (py "b")
        = Raise depth_RecursionError)
  /\ ThaiWordsNewmmTokenizer._convert_token_to_id 1000 tokenizer_without_unk (py "b")
     = Raise depth_RecursionError.
Proof.
  assert (Hb : ThaiWordsNewmmTokenizer.tokenizer_model tokenizer_without_unk !! py "b"
               = None) by (vm_compute; reflexivity).
  assert (Hrec : forall depth,
            ThaiWordsNewmmTokenizer._convert_token_to_id depth tokenizer_without_unk
              (py "b") = Raise depth_RecursionError).
  { intros depth.
    apply (convert_unknown_recursion tokenizer_without_unk (py "<unk>"));
      [done| |done].
    vm_compute. reflexivity. }
  split; [exact Hb|]. split; [exact Hrec|]. apply Hrec.
Qed.

(** Without an unknown token the answer for a token that is not in the
    vocabulary is [None]. *)
Example convert_token_to_id_unset :
  ThaiWordsNewmmTokenizer._convert_token_to_id 1000
    (ThaiWordsNewmmTokenizer.Build {[ py "a" := 0 ]} 2 3 None ∅) (py "b")
  = Ok None.
Proof. vm_compute. reflexivity. Qed.


(** ** The builder on the sample corpus *)

Example read_loop_sample :
  file_tokens sample_fs (sample_trainer sample_specials None (Some 2)) (py "corpus.txt")
  = [py "b"; py "a"; py "<s>"; py "a"; py "c"; py "b"; py "a"].
Proof. vm_compute. reflexivity. Qed.

Example count_freq_sample :
  WordLevelTrainer.count_freq sample_fs (sample_trainer sample_specials None (Some 2))
  = Ok [ (py "<s>", 1); (py "<pad>", 0); (py "b", 2); (py "a", 3); ([3585; 3634]%N, 2) ].
Proof. vm_compute. reflexivity. Qed.

(** What the size cutoff computes and drops: the two most frequent tokens,
    the earlier first among equals. *)
Example most_common_sample :
  most_common (Counter_new (corpus sample_fs (sample_trainer sample_specials (Some 2) None))) 2
  = [(py "a", 3); (py "b", 2)]
  /\ most_common [(py "x", 1); (py "y", 2); (py "z", 2); (py "w", 1)] 3
     = [(py "y", 2); (py "z", 2); (py "x", 1)].
Proof. vm_compute. split; reflexivity. Qed.

Example count_parallel_sample :
  (WordLevelTrainer.count_parallel sample_fs
     (sample_trainer sample_specials None (Some 2)) 1).1
  = Ok sample_vocab.
Proof. vm_compute. reflexivity. Qed.

(** Without any cutoff the comparison with [None] raises as soon as one
    token that is not special has been counted. *)
Example no_cutoff_sample :
  (WordLevelTrainer.count_parallel sample_fs
     (sample_trainer sample_specials None None) 1).1
  = Raise compare_TypeError.
Proof. vm_compute. reflexivity. Qed.

Example missing_file_sample :
  (WordLevelTrainer.count_parallel (fun fname => Raise (open_FileNotFoundError fname))
     (sample_trainer sample_specials None (Some 2)) 1).1
  = Raise (open_FileNotFoundError (py "corpus.txt")).
Proof. vm_compute. reflexivity. Qed.

(** ** Special tokens and dense indices *)

(** C2, as the code behaves. Whenever [count_parallel] returns a
    vocabulary, the frequency list holds the declared special tokens at
    the positions [0 .. k-1], in their declared order, each with its
    observed frequency (zero when it never occurs); and when the declared
    special tokens are pairwise distinct, the vocabulary gives the [i]-th
    of them the index [i]. *)
Theorem special_tokens_first (fs : filesystem) (self : WordLevelTrainer.t)
    (nb_cores : Z) (vocab : dict nat) (self' : WordLevelTrainer.t) :
  WordLevelTrainer.count_parallel fs self nb_cores = (Ok vocab, self') ->
  (exists fr, WordLevelTrainer.freq self' = Some fr
     /\ forall i tok, WordLevelTrainer.special_tokens self !! i = Some tok ->
                      fr !! i = Some (tok, observed fs self tok))
  /\ (NoDup (WordLevelTrainer.special_tokens self) ->
      specials_in_prefix (WordLevelTrainer.special_tokens self) vocab).
Proof.
  intros (fr & Hfr & -> & Hfreq & _)%count_parallel_Ok.
  destruct (specials_first fs self fr Hfr) as [Hfirst Hprefix].
  split; [by exists fr|]. intros Hs. by apply Hprefix.
Qed.

(** C6, as the code behaves. When the declared special tokens are
    pairwise distinct, every vocabulary that [count_parallel] returns has
    exactly the indices [0 .. n-1] for its [n] entries, none twice, and
    the special tokens have the first of them, in declared order. *)
Theorem dense_indices_distinct_specials (fs : filesystem) (self : WordLevelTrainer.t)
    (nb_cores : Z) (vocab : dict nat) (self' : WordLevelTrainer.t) :
  NoDup (WordLevelTrainer.special_tokens self) ->
  WordLevelTrainer.count_parallel fs self nb_cores = (Ok vocab, self') ->
  dense_indices vocab
  /\ specials_in_prefix (WordLevelTrainer.special_tokens self) vocab.
Proof.
  intros Hs (fr & Hfr & -> & _)%count_parallel_Ok.
  destruct (specials_first fs self fr Hfr) as [_ Hprefix].
  destruct (Hprefix Hs) as [Hkeys Hpre].
  split; [by apply index_vocab_dense|done].
Qed.


(** The special tokens [<s>], [<pad>] on the sample corpus. *)
Lemma special_tokens_first_witness :
  (exists fr,
     WordLevelTrainer.freq
       (WordLevelTrainer.count_parallel sample_fs
          (sample_trainer sample_specials None (Some 2)) 1).2 = Some fr
     /\ forall i tok, sample_specials !! i = Some tok ->
          fr !! i = Some (tok, observed sample_fs
                                 (sample_trainer sample_specials None (Some 2)) tok))
  /\ (NoDup sample_specials -> specials_in_prefix sample_specials sample_vocab).
Proof.
  apply (special_tokens_first sample_fs (sample_trainer sample_specials None (Some 2)) 1
           sample_vocab).
  apply injective_projections; [vm_compute; reflexivity|reflexivity].
Defined.

(** C2 as stated fails when a special token is declared twice: declared
    as [<s>], [<s>], the token gets the index 1 and no token gets 0. *)
Lemma special_tokens_first_counterexample :
  exists vocab self',
    WordLevelTrainer.count_parallel sample_fs
      (sample_trainer [py "<s>"; py "<s>"] None (Some 2)) 1 = (Ok vocab, self')
    /\ dict_get vocab (py "<s>") = Some 1%nat
    /\ ~ specials_in_prefix [py "<s>"; py "<s>"] vocab.
Proof.
  exists [(py "<s>", 1%nat); (py "b", 2%nat); (py "a", 3%nat); ([3585; 3634]%N, 4%nat)].
  eexists. split_and!.
  - apply injective_projections; [vm_compute; reflexivity|reflexivity].
  - vm_compute. reflexivity.
  - intros H. specialize (H 0%nat (py "<s>") eq_refl). vm_compute in H. discriminate.
Qed.

(** The vocabulary of the sample corpus is dense. *)
Lemma dense_indices_distinct_specials_witness :
  dense_indices sample_vocab /\ specials_in_prefix sample_specials sample_vocab.
Proof.
  apply (dense_indices_distinct_specials sample_fs
           (sample_trainer sample_specials None (Some 2)) 1 sample_vocab
           (WordLevelTrainer.count_parallel sample_fs
              (sample_trainer sample_specials None (Some 2)) 1).2).
  - apply (bool_decide_unpack (NoDup sample_specials)). vm_compute. exact I.
  - apply injective_projections; [vm_compute; reflexivity|reflexivity].
Defined.

(** C6 as stated fails for a sequence of special tokens that repeats one:
    declared as [<pad>], [<s>], [<pad>], the seven entries of the
    vocabulary have the indices 1 to 7. *)
Lemma dense_indices_counterexample :
  exists vocab self',
    WordLevelTrainer.count_parallel sample_fs
      (sample_trainer [py "<pad>"; py "<s>"; py "<pad>"] None (Some 1)) 1
    = (Ok vocab, self')
    /\ length vocab = 7%nat
    /\ 0%nat ∉ values vocab
    /\ ~ dense_indices vocab.
Proof.
  exists [ (py "<pad>", 2%nat); (py "<s>", 1%nat); (py "b", 3%nat); (py "a", 4%nat);
           (py "c", 5%nat); ([3585; 3634]%N, 6%nat); ([3617; 3634]%N, 7%nat) ].
  eexists.
  assert (Hzero : 0%nat ∉ [2; 1; 3; 4; 5; 6; 7]%nat).
  { intros Hin. repeat (apply elem_of_cons in Hin as [Hin|Hin]; [discriminate|]).
    by apply elem_of_nil in Hin. }
  split_and!.
  - apply injective_projections; [vm_compute; reflexivity|reflexivity].
  - reflexivity.
  - exact Hzero.
  - intros [_ Hdense]. apply Hzero. apply (Hdense 0%nat). cbn. lia.
Qed.


(** ** The frequency cutoff *)

Section min_freq_facts.
Import WordLevelTrainer.
Variable fs : filesystem.
Variable self : WordLevelTrainer.t.
Variable m : Z.
Hypothesis Hsize : vocab_size self = None.
Hypothesis Hmin : vocab_min_freq self = Some m.

(** The items kept by the cutoff. *)
Lemma count_freq_min_freq :
  count_freq fs self
  = match first_failure fs (input_files self) with
    | None =>
        Ok (special_part fs self
            ++ filter (fun kv => m <= kv.2)
                 (filter (fun kv => kv.1 ∉ special_tokens self) (counted_all fs self)))
    | Some e => Raise e
    end.
Proof using Hsize Hmin.
  rewrite count_freq_eq, Hsize, Hmin, items_at_least_Some.
  by destruct (first_failure fs (input_files self)).
Qed.

Lemma kept_elem (tok : str) (n : Z) :
  (tok, n) ∈ filter (fun kv => m <= kv.2)
               (filter (fun kv => kv.1 ∉ special_tokens self) (counted_all fs self))
  <-> tok ∉ special_tokens self /\ n = observed fs self tok /\ 0 < n /\ m <= n.
Proof.
  rewrite !list_elem_of_filter, counted_all_elem. cbn [fst snd]. naive_solver.
Qed.
End min_freq_facts.

(** C4. For a trainer constructed with [vocab_min_freq = m],
    [count_parallel] returns a vocabulary whenever the input files can be
    opened, and in every vocabulary it returns: a token that is not
    special and whose total count over all input files is below [m] is
    absent; every declared special token is present, whatever its count;
    and the items after the special tokens in the frequency list are
    exactly the tokens that are not special, occur, and occur at least [m]
    times, each with its observed frequency: the special tokens are out
    of the counter before the cutoff is applied. *)
Theorem min_freq_cutoff (fs : filesystem) (pre_tokenize_func : str -> list str)
    (input_files specials : list str) (vocab_size : option Z) (m : Z)
    (progress : bool) (nb_cores : Z) (self : WordLevelTrainer.t) :
  WordLevelTrainer.__init__ pre_tokenize_func input_files specials vocab_size (Some m)
    progress = Ok self ->
  (readable fs input_files = true ->
   exists vocab self', WordLevelTrainer.count_parallel fs self nb_cores = (Ok vocab, self'))
  /\ forall vocab self',
       WordLevelTrainer.count_parallel fs self nb_cores = (Ok vocab, self') ->
       (forall tok, tok ∉ specials -> observed fs self tok < m ->
                    dict_get vocab tok = None)
       /\ (forall tok, tok ∈ specials -> is_Some (dict_get vocab tok))
       /\ exists fr, WordLevelTrainer.freq self' = Some fr
            /\ forall tok n,
                 (tok, n) ∈ drop (length specials) fr
                 <-> tok ∉ specials /\ n = observed fs self tok /\ 0 < n /\ m <= n.
Proof.
  intros Hinit. unfold WordLevelTrainer.__init__ in Hinit.
  destruct vocab_size as [n|]; [done|]. cbn in Hinit. injection Hinit as <-.
  set (self := WordLevelTrainer.Build _ _ _ _ _ _ _ _).
  pose proof (count_freq_min_freq fs self m eq_refl eq_refl) as Hfreq.
  change (WordLevelTrainer.input_files self) with input_files in Hfreq.
  change (WordLevelTrainer.special_tokens self) with specials in Hfreq.
  pose proof (kept_elem fs self m) as Hkept.
  change (WordLevelTrainer.special_tokens self) with specials in Hkept.
  set (kept := filter _ (filter _ _)) in *.
  split.
  - intros Hread. rewrite readable_first_failure in Hread.
    unfold WordLevelTrainer.count_parallel. rewrite Hfreq.
    destruct (first_failure fs input_files); [done|]. by eexists _, _.
  - intros vocab self' (fr & Hfr & -> & Hself' & _)%count_parallel_Ok.
    rewrite Hfreq in Hfr. destruct (first_failure fs input_files); [done|].
    injection Hfr as <-.
    assert (Hkeys : forall tok, tok ∈ keys (special_part fs self ++ kept)
                                <-> tok ∈ specials \/ tok ∈ keys kept).
    { intros tok. unfold keys at 1. rewrite fmap_app, elem_of_app.
      fold (keys (special_part fs self)) (keys kept).
      by rewrite special_part_keys. }
    split_and!.
    + intros tok Hns Hlow.
      destruct (dict_get _ tok) as [i|] eqn:E; [|done]. exfalso.
      assert (Hin : tok ∈ keys (special_part fs self ++ kept))
        by (apply index_vocab_contains; by rewrite E).
      apply Hkeys in Hin as [Hin|Hin]; [done|].
      apply list_elem_of_fmap in Hin as ([tok' n] & -> & Hin).
      apply Hkept in Hin as (_ & -> & _ & Hge). cbn [fst] in Hlow. lia.
    + intros tok Hin. apply index_vocab_contains, Hkeys. by left.
    + eexists. split; [exact Hself'|]. intros tok n.
      rewrite drop_app_length' by (by rewrite special_part_length).
      apply Hkept.
Qed.

(** The cutoff at 2 on the sample corpus. *)
Lemma min_freq_cutoff_witness :
  (readable sample_fs sample_files = true ->
   exists vocab self',
     WordLevelTrainer.count_parallel sample_fs
       (sample_trainer sample_specials None (Some 2)) 1 = (Ok vocab, self'))
  /\ forall vocab self',
       WordLevelTrainer.count_parallel sample_fs
         (sample_trainer sample_specials None (Some 2)) 1 = (Ok vocab, self') ->
       (forall tok, tok ∉ sample_specials ->
          observed sample_fs (sample_trainer sample_specials None (Some 2)) tok < 2 ->
          dict_get vocab tok = None)
       /\ (forall tok, tok ∈ sample_specials -> is_Some (dict_get vocab tok))
       /\ exists fr, WordLevelTrainer.freq self' = Some fr
            /\ forall tok n,
                 (tok, n) ∈ drop (length sample_specials) fr
                 <-> tok ∉ sample_specials
                     /\ n = observed sample_fs
                              (sample_trainer sample_specials None (Some 2)) tok
                     /\ 0 < n /\ 2 <= n.
Proof.
  apply (min_freq_cutoff sample_fs ws_split sample_files sample_specials None 2 true 1).
  reflexivity.
Defined.


(** ** The fine-tuning script *)

(** The two classes that [tokenizers.py] does not define. *)
Lemma import_from_tokenizers :
  seq_cls_finetune.import_from (py "thai2transformers.tokenizers")
    seq_cls_finetune.tokenizers_names
    [ py "ThaiRobertaTokenizer"; py "ThaiWordsNewmmTokenizer";
      py "ThaiWordsSyllableTokenizer"; py "FakeSefrCutTokenizer" ]
  = Raise (MkExn ImportError
             (OfName (py "ThaiWordsSyllableTokenizer") (py "thai2transformers.tokenizers")))
  /\ py "ThaiWordsSyllableTokenizer" ∉ seq_cls_finetune.tokenizers_names
  /\ py "FakeSefrCutTokenizer" ∉ seq_cls_finetune.tokenizers_names.
Proof.
  split; [vm_compute; reflexivity|].
  split.
  - apply (bool_decide_unpack
             (py "ThaiWordsSyllableTokenizer" ∉ seq_cls_finetune.tokenizers_names)).
    vm_compute. exact I.
  - apply (bool_decide_unpack
             (py "FakeSefrCutTokenizer" ∉ seq_cls_finetune.tokenizers_names)).
    vm_compute. exact I.
Qed.

(** C5, as the code behaves: whatever the tokenizer type and the dataset
    name, supported or not, the script ends at its imports, once the other
    imports have succeeded: [tokenizers.py] does not define
    [ThaiWordsSyllableTokenizer], so the import of line 26 raises an
    [ImportError], which is neither a value error nor a lookup error. The
    check of the tokenizer type is never reached. *)
Theorem unsupported_tokenizer_type_raises_ImportError {dataset : Type}
    (other_imports : result unit)
    (load_dataset : str -> result dataset)
    (sefr_load_model : result unit)
    (sefr_map : str -> dataset -> result dataset)
    (train_and_evaluate :
       seq_cls_finetune.tokenizer_cls -> seq_cls_finetune.metadata -> dataset -> result unit)
    (tokenizer_type dataset_name : str) :
  other_imports = Ok tt ->
  exists e,
    seq_cls_finetune.main other_imports load_dataset sefr_load_model sefr_map
      train_and_evaluate tokenizer_type dataset_name = Raise e
    /\ e = MkExn ImportError
             (OfName (py "ThaiWordsSyllableTokenizer") (py "thai2transformers.tokenizers"))
    /\ exn_class e = ImportError
    /\ value_or_lookup_error e = false.
Proof.
  intros ->. eexists. split; [|split; [reflexivity|split; reflexivity]].
  unfold seq_cls_finetune.main, seq_cls_finetune.imports.
  cbn [mbind result_bind].
  destruct import_from_tokenizers as [-> _]. reflexivity.
Qed.

(** The tokenizer type [bpe]. *)
Lemma unsupported_tokenizer_type_witness :
  exists e,
    seq_cls_finetune.main (Ok tt) (fun _ => Ok tt) (Ok tt) (fun _ ds => Ok ds)
      (fun _ _ _ => Ok tt) (py "bpe") (py "wisesight_sentiment") = Raise e
    /\ e = MkExn ImportError
             (OfName (py "ThaiWordsSyllableTokenizer") (py "thai2transformers.tokenizers"))
    /\ exn_class e = ImportError
    /\ value_or_lookup_error e = false.
Proof.
  apply (unsupported_tokenizer_type_raises_ImportError
           (Ok tt) (fun _ => Ok tt) (Ok tt) (fun _ ds => Ok ds) (fun _ _ _ => Ok tt)
           (py "bpe") (py "wisesight_sentiment")).
  reflexivity.
Defined.

(** The check of lines 187 to 190 on its own: in the block, with a
    dataset that loads, a tokenizer type that is not a key of
    [TOKENIZER_CLS] reaches a [raise] statement whose operand is a string,
    which is a [TypeError]. *)
Lemma tokenizer_type_check_raises {dataset : Type}
    (load_dataset : str -> result dataset)
    (sefr_load_model : result unit)
    (sefr_map : str -> dataset -> result dataset)
    (train_and_evaluate :
       seq_cls_finetune.tokenizer_cls -> seq_cls_finetune.metadata -> dataset -> result unit)
    (tokenizer_type dataset_name : str) (ds : dataset) :
  tokenizer_type ∉ keys seq_cls_finetune.TOKENIZER_CLS ->
  load_dataset dataset_name = Ok ds ->
  seq_cls_finetune.body load_dataset sefr_load_model sefr_map train_and_evaluate
    tokenizer_type dataset_name
  = Raise raise_TypeError.
Proof.
  intros Hkey Hload.
  unfold seq_cls_finetune.body, seq_cls_finetune.load. rewrite Hload.
  cbn [mbind result_bind].
  destruct (decide (tokenizer_type = py "sefr")) as [->|_].
  - exfalso. apply Hkey. vm_compute. do 3 apply list_elem_of_further. apply list_elem_of_here.
  - cbn [mret result_ret]. rewrite bool_decide_eq_false_2 by done. reflexivity.
Qed.


(** ** Special tokens around the inputs *)

(** Lookups in concatenations, with the lengths settled by [lia]. *)
Ltac list_len :=
  repeat (rewrite ?length_app, ?length_replicate, ?length_cons, ?length_nil; cbn [length]); lia.
Ltac look_l := rewrite lookup_app_l by list_len.
Ltac look_r := rewrite lookup_app_r by list_len.

Section mask_facts.

(** One list: [<s> X </s>]. *)
Lemma mask_single (cls sep : Z) (ids0 : list Z) (i : nat) :
  let n0 := length ids0 in
  let inputs := [cls] ++ ids0 ++ [sep] in
  let mask := [1] ++ replicate n0 0 ++ [1] in
  (i < length inputs)%nat ->
  if decide (i ∈ [0; n0 + 1]%nat)
  then mask !! i = Some 1 /\ (inputs !! i = Some cls \/ inputs !! i = Some sep)
  else mask !! i = Some 0
       /\ inputs !! i = ids0 !! (i - length (filter (fun p => p < i)%nat [0; n0 + 1]%nat))%nat.
Proof.
  intros n0 inputs mask Hi. subst inputs mask.
  rewrite !length_app in Hi. cbn [length] in Hi.
  rewrite !filter_cons, filter_nil.
  destruct (decide (i = 0%nat)) as [->|H0].
  { rewrite decide_True by (apply elem_of_cons; by left). split; [done|by left]. }
  destruct (decide (i = n0 + 1)%nat) as [->|H1].
  { rewrite decide_True by (apply elem_of_cons; right; apply elem_of_cons; by left).
    split.
    - look_r. look_r. cbn [length]. rewrite length_replicate.
      replace (n0 + 1 - 1 - n0)%nat with 0%nat by lia. done.
    - right. look_r. look_r. cbn [length]. fold n0.
      replace (n0 + 1 - 1 - n0)%nat with 0%nat by lia. done. }
  rewrite decide_False.
  2:{ rewrite !elem_of_cons, elem_of_nil. lia. }
  rewrite (decide_True (P := (0 < i)%nat)) by lia.
  rewrite (decide_False (P := (n0 + 1 < i)%nat)) by (fold n0 in Hi; lia).
  cbn [length].
  split.
  - look_r. look_l. cbn [length]. apply lookup_replicate_2. fold n0 in Hi. lia.
  - look_r. rewrite lookup_app_l by (cbn [length]; fold n0 in Hi |- *; lia). done.
Qed.

(** Two lists: [<s> A </s></s> B </s>]. *)
Lemma mask_pair (cls sep : Z) (ids0 ids1 : list Z) (i : nat) :
  let n0 := length ids0 in
  let n1 := length ids1 in
  let inputs := [cls] ++ ids0 ++ [sep] ++ [sep] ++ ids1 ++ [sep] in
  let mask := [1] ++ replicate n0 0 ++ [1; 1] ++ replicate n1 0 ++ [1] in
  (i < length inputs)%nat ->
  if decide (i ∈ [0; n0 + 1; n0 + 2; n0 + n1 + 3]%nat)
  then mask !! i = Some 1 /\ (inputs !! i = Some cls \/ inputs !! i = Some sep)
  else mask !! i = Some 0
       /\ inputs !! i
          = (ids0 ++ ids1)
              !! (i - length (filter (fun p => p < i)%nat
                                [0; n0 + 1; n0 + 2; n0 + n1 + 3]%nat))%nat.
Proof.
  intros n0 n1 inputs mask Hi. subst inputs mask.
  rewrite !length_app in Hi. cbn [length] in Hi. fold n0 n1 in Hi.
  rewrite !filter_cons, filter_nil.
  destruct (decide (i = 0%nat)) as [->|H0].
  { rewrite decide_True by (rewrite !elem_of_cons; lia). split; [done|by left]. }
  destruct (decide (i = n0 + 1)%nat) as [->|H1].
  { rewrite decide_True by (rewrite !elem_of_cons; lia).
    split; [|right]; look_r; look_r; cbn [length]; rewrite ?length_replicate; fold n0;
      by replace (n0 + 1 - 1 - n0)%nat with 0%nat by lia. }
  destruct (decide (i = n0 + 2)%nat) as [->|H2].
  { rewrite decide_True by (rewrite !elem_of_cons; lia).
    split; [|right]; look_r; look_r; cbn [length]; rewrite ?length_replicate; fold n0;
      by replace (n0 + 2 - 1 - n0)%nat with 1%nat by lia. }
  destruct (decide (i = n0 + n1 + 3)%nat) as [->|H3].
  { rewrite decide_True by (rewrite !elem_of_cons; lia).
    split; [|right].
    - look_r. look_r. change [1; 1] with ([1] ++ [1]). rewrite <- app_assoc.
      look_r. look_r. look_r. cbn [length]. rewrite !length_replicate.
      by replace (n0 + n1 + 3 - 1 - n0 - 1 - 1 - n1)%nat with 0%nat by lia.
    - look_r. look_r. look_r. look_r. look_r. cbn [length]. fold n0 n1.
      by replace (n0 + n1 + 3 - 1 - n0 - 1 - 1 - n1)%nat with 0%nat by lia. }
  rewrite decide_False by (rewrite !elem_of_cons, elem_of_nil; lia).
  rewrite (decide_True (P := (0 < i)%nat)) by lia.
  rewrite (decide_False (P := (n0 + n1 + 3 < i)%nat)) by lia.
  destruct (decide (i < n0 + 1)%nat) as [Hlow|Hhigh].
  - rewrite (decide_False (P := (n0 + 1 < i)%nat)) by lia.
    rewrite (decide_False (P := (n0 + 2 < i)%nat)) by lia.
    cbn [length]. split.
    + look_r. look_l. cbn [length]. apply lookup_replicate_2. lia.
    + look_r. rewrite lookup_app_l by (cbn [length]; fold n0; lia).
      rewrite lookup_app_l by (fold n0; lia). done.
  - rewrite (decide_True (P := (n0 + 1 < i)%nat)) by lia.
    rewrite (decide_True (P := (n0 + 2 < i)%nat)) by lia.
    cbn [length]. split.
    + look_r. look_r. change [1; 1] with ([1] ++ [1]). rewrite <- app_assoc.
      look_r. look_r. look_l. cbn [length]. rewrite !length_replicate.
      apply lookup_replicate_2. lia.
    + look_r. look_r. look_r. look_r.
      rewrite lookup_app_l by (cbn [length]; fold n0 n1; lia).
      rewrite lookup_app_r by (fold n0; lia).
      cbn [length]. fold n0. f_equal. lia.
Qed.
End mask_facts.

(** C10. For every list of ids and every optional second list,
    [create_token_type_ids_from_sequences] returns zeros, as many as
    [build_inputs_with_special_tokens] returns ids, and
    [get_special_tokens_mask] without [already_has_special_tokens] returns
    a list of zeros and ones of that length: a one at each position where
    the inputs hold an inserted [cls] or [sep] token, a zero at each other
    position, where the inputs hold the given ids in their order. *)
Theorem special_tokens_mask_matches_inputs (self : ThaiWordsNewmmTokenizer.t)
    (token_ids_0 : list Z) (token_ids_1 : option (list Z)) :
  let inputs :=
    ThaiWordsNewmmTokenizer.build_inputs_with_special_tokens self token_ids_0 token_ids_1 in
  ThaiWordsNewmmTokenizer.create_token_type_ids_from_sequences self token_ids_0 token_ids_1
  = replicate (length inputs) 0
  /\ exists mask,
       ThaiWordsNewmmTokenizer.get_special_tokens_mask self token_ids_0 token_ids_1 false
       = Ok mask
       /\ length mask = length inputs
       /\ Forall (fun b => b = 0 \/ b = 1) mask
       /\ forall i : nat, (i < length inputs)%nat ->
            if decide (i ∈ inserted_positions token_ids_0 token_ids_1)
            then mask !! i = Some 1
                 /\ (inputs !! i = Some (ThaiWordsNewmmTokenizer.cls_token_id self)
                     \/ inputs !! i = Some (ThaiWordsNewmmTokenizer.sep_token_id self))
            else mask !! i = Some 0
                 /\ inputs !! i
                    = (token_ids_0 ++ default [] token_ids_1)
                        !! (i - length (filter (fun p => p < i)%nat
                                          (inserted_positions token_ids_0 token_ids_1)))%nat.
Proof.
  cbv zeta.
  unfold ThaiWordsNewmmTokenizer.build_inputs_with_special_tokens,
    ThaiWordsNewmmTokenizer.create_token_type_ids_from_sequences,
    ThaiWordsNewmmTokenizer.get_special_tokens_mask, inserted_positions.
  destruct token_ids_1 as [token_ids_1|]; (split; [reflexivity|]);
    eexists; (split; [reflexivity|]); split_and!.
  - list_len.
  - repeat (apply Forall_app; split); try apply Forall_replicate;
      repeat apply Forall_cons_2; try apply Forall_nil_2; auto.
  - intros i Hi. cbn [default]. by apply mask_pair.
  - list_len.
  - repeat (apply Forall_app; split); try apply Forall_replicate;
      repeat apply Forall_cons_2; try apply Forall_nil_2; auto.
  - intros i Hi. cbn [default]. rewrite app_nil_r. by apply mask_single.
Qed.

(** The mask and the inputs of a pair of lists, evaluated. *)
Example mask_of_a_pair :
  let self := ThaiWordsNewmmTokenizer.Build ∅ 0 2 (Some (py "<unk>")) ∅ in
  ThaiWordsNewmmTokenizer.build_inputs_with_special_tokens self [7; 8] (Some [9])
  = [0; 7; 8; 2; 2; 9; 2]
  /\ ThaiWordsNewmmTokenizer.get_special_tokens_mask self [7; 8] (Some [9]) false
     = Ok [1; 0; 0; 1; 1; 0; 1]
  /\ inserted_positions [7; 8] (Some [9]) = [0; 3; 4; 6]%nat.
Proof. repeat split. Qed.

(** * Further properties of the code *)

(** [lia] after the alias [str] is unfolded, so that equal lengths are
    equal terms. *)
Ltac str_lia := unfold str, char in *; lia.

Section split_words.
Import CustomPreTokenizer.

Lemma mjoin_cons_length (w : str) (ws : list str) :
  length (mjoin (w :: ws)) = (length w + length (mjoin ws))%nat.
Proof. cbn. by rewrite length_app. Qed.

(** The break points are the lengths of the non-empty prefixes of the
    word list. *)
Lemma elem_of_break_fold (words : list str) :
  forall (total : nat) (b : list nat) (i : nat),
    i ∈ (fold_left break_step words (total, b)).2
    <-> i ∈ b \/ exists j, (1 <= j <= length words)%nat
                           /\ i = (total + length (mjoin (take j words)))%nat.
Proof.
  induction words as [|w ws IH]; intros total b i.
  - cbn. split; [by left|]. intros [?|(j & ? & _)]; [done|lia].
  - cbn [fold_left break_step]. rewrite IH, elem_of_app, list_elem_of_singleton.
    split.
    + intros [[Hb| ->]|(j & Hj & ->)].
      * by left.
      * right. exists 1%nat. split; [cbn; lia|]. cbn. rewrite app_nil_r. done.
      * right. exists (S j). split; [cbn; lia|].
        change (take (S j) (w :: ws)) with (w :: take j ws).
        rewrite mjoin_cons_length. lia.
    + intros [Hb|(j & Hj & ->)]; [by left; left|].
      destruct j as [|[|j]]; [lia| |].
      * left; right. cbn. rewrite app_nil_r. done.
      * right. exists (S j). split; [cbn in Hj; lia|].
        change (take (S (S j)) (w :: ws)) with (w :: take (S j) ws).
        rewrite mjoin_cons_length. lia.
Qed.

Lemma elem_of_break_points (words : list str) (i : nat) :
  i ∈ break_points words
  <-> exists j, (1 <= j <= length words)%nat /\ i = length (mjoin (take j words)).
Proof.
  unfold break_points. rewrite elem_of_break_fold.
  split; [intros [[]%elem_of_nil|?]; done|by right].
Qed.

(** Positions without a break point leave the state of the loop alone. *)
Lemma split_loop_no_cut (ns : str) (B : list nat) (l : str) :
  forall (k : nat) (st : list str * nat),
    (forall i, (k <= i < k + length l)%nat -> i ∉ B) ->
    fold_left (split_step ns B) (enumerate_from k l) st = st.
Proof.
  induction l as [|c l IH]; intros k [splits last] Hfree; [done|].
  cbn [enumerate_from fold_left split_step].
  rewrite bool_decide_eq_false_2 by (apply Hfree; cbn; lia).
  apply IH. intros i Hi. apply Hfree. cbn. lia.
Qed.

Lemma enumerate_from_app {A} (l1 l2 : list A) (k : nat) :
  enumerate_from k (l1 ++ l2)
  = enumerate_from k l1 ++ enumerate_from (k + length l1) l2.
Proof.
  revert k. induction l1 as [|x l1 IH]; intros k; cbn.
  - by rewrite Nat.add_0_r.
  - rewrite IH. do 3 f_equal. lia.
Qed.

(** The loop at the start of the words [ws], with the word [pend] read
    but not yet cut off. *)
Lemma split_loop_words (ns : str) (B : list nat) (ws : list str) :
  Forall (fun w => w <> []) ws ->
  forall (pre pend : str) (splits : list str),
    ns = pre ++ pend ++ mjoin ws ->
    (forall i, (length pre + length pend <= i)%nat ->
       i ∈ B <-> exists j, (j <= length ws)%nat
                           /\ i = (length pre + length pend
                                   + length (mjoin (take j ws)))%nat) ->
    let st := fold_left (split_step ns B)
                (enumerate_from (length pre + length pend) (mjoin ws))
                (splits, length pre) in
    st.1 ++ [slice_from ns st.2] = splits ++ pend :: ws.
Proof.
  induction 1 as [|w ws Hw Hws IH]; intros pre pend splits Hns HB.
  - cbn. rewrite Hns. unfold slice_from. cbn. rewrite app_nil_r.
    by rewrite drop_app_length.
  - destruct w as [|c w]; [done|].
    change (mjoin ((c :: w) :: ws)) with (c :: (w ++ mjoin ws)).
    cbn [enumerate_from fold_left split_step].
    rewrite bool_decide_eq_true_2.
    2:{ apply (proj2 (HB _ (Nat.le_refl _))). exists 0%nat. split; [str_lia|]. cbn. str_lia. }
    rewrite enumerate_from_app, fold_left_app.
    rewrite (split_loop_no_cut ns B w).
    2:{ intros i Hi. rewrite HB by lia. intros (j & Hj & ->).
        destruct j as [|j]; [cbn in Hi; str_lia|].
        change (take (S j) ((c :: w) :: ws)) with ((c :: w) :: take j ws) in Hi.
        rewrite mjoin_cons_length in Hi. cbn in Hi.
        str_lia. }
    assert (Hslice : slice ns (length pre) (length pre + length pend) = pend).
    { unfold slice. rewrite Hns, drop_app_length.
      replace (length pre + length pend - length pre)%nat with (length pend) by lia.
      by rewrite take_app_length. }
    rewrite Hslice.
    specialize (IH (pre ++ pend) (c :: w) (splits ++ [pend])).
    rewrite length_app in IH.
    replace (S (length pre + length pend) + length w)%nat
      with (length pre + length pend + length (c :: w))%nat by (cbn; str_lia).
    replace (splits ++ pend :: (c :: w) :: ws)
      with ((splits ++ [pend]) ++ (c :: w) :: ws) by (by rewrite <- app_assoc).
    apply IH.
    + rewrite Hns. rewrite <- !app_assoc. done.
    + intros i Hi. rewrite HB by lia. split.
      * intros (j & Hj & ->). destruct j as [|j]; [cbn in Hi; str_lia|].
        exists j. split; [cbn in Hj; str_lia|].
        change (take (S j) ((c :: w) :: ws)) with ((c :: w) :: take j ws).
        rewrite mjoin_cons_length.
        str_lia.
      * intros (j & Hj & ->). exists (S j). split; [cbn; str_lia|].
        change (take (S j) ((c :: w) :: ws)) with ((c :: w) :: take j ws).
        rewrite mjoin_cons_length. str_lia.
Qed.

(** X1. When the words of the pre-tokenize function are not empty and join
    to the text, [split] returns exactly these words: it cuts at every
    word boundary and nowhere else. *)
Theorem split_returns_words (pre_tokenize_func : str -> list str) (n : Z) (s : str) :
  Forall (fun w => w <> []) (pre_tokenize_func s) ->
  mjoin (pre_tokenize_func s) = s ->
  s <> [] ->
  split pre_tokenize_func n s = pre_tokenize_func s.
Proof.
  intros Hne Hjoin Hs. unfold split.
  destruct (pre_tokenize_func s) as [|w ws] eqn:Hwords; [by subst s|].
  apply Forall_cons in Hne as [Hw Hws].
  set (B := break_points (w :: ws)).
  pose proof (split_loop_words s B ws Hws [] w []) as Hloop.
  cbn [length Nat.add app] in Hloop.
  unfold enumerate. rewrite <- Hjoin at 2.
  change (mjoin (w :: ws)) with (w ++ mjoin ws).
  rewrite enumerate_from_app, fold_left_app.
  rewrite (split_loop_no_cut s B w).
  2:{ intros i Hi. unfold B. rewrite elem_of_break_points.
      intros (j & Hj & ->). destruct j as [|j]; [str_lia|].
      change (take (S j) (w :: ws)) with (w :: take j ws) in Hi.
      rewrite mjoin_cons_length in Hi. str_lia. }
  cbn [Nat.add].
  destruct (fold_left _ _ _) as [splits last] eqn:Hfold.
  cbn [fst snd] in Hloop. apply Hloop.
  - by rewrite <- Hjoin.
  - intros i Hi. unfold B. rewrite elem_of_break_points. split.
    + intros (j & Hj & ->). destruct j as [|j]; [str_lia|].
      exists j. split; [cbn in Hj; str_lia|].
      change (take (S j) (w :: ws)) with (w :: take j ws).
      by rewrite mjoin_cons_length.
    + intros (j & Hj & ->). exists (S j). split; [cbn; str_lia|].
      change (take (S j) (w :: ws)) with (w :: take j ws).
      by rewrite mjoin_cons_length.
Qed.
Lemma split_returns_words_witness :
  split each_char 0 (py "abc") = each_char (py "abc").
Proof.
  apply (split_returns_words each_char 0 (py "abc")).
  - apply (bool_decide_unpack (Forall (fun w => w <> []) (each_char (py "abc")))).
    vm_compute. exact I.
  - reflexivity.
  - discriminate.
Defined.
End split_words.

Section split_segments.
Import CustomPreTokenizer.

Lemma slice_nonempty {A} (s : list A) (a b : nat) :
  (a < b <= length s)%nat -> slice s a b <> [].
Proof.
  intros Hab Hnil. apply (f_equal length) in Hnil.
  unfold slice in Hnil. rewrite length_take, length_drop in Hnil. cbn in Hnil. lia.
Qed.

Lemma tail_app_nonempty {A} (l1 l2 : list A) :
  l1 <> [] -> tail (l1 ++ l2) = tail l1 ++ l2.
Proof. by destruct l1. Qed.

(** After the first cut every cut is at a later position than the one
    before. *)
Lemma split_loop_nonempty (ns : str) (B : list nat) (rest : str) :
  forall (k : nat) (splits : list str) (last : nat),
    (k + length rest = length ns)%nat ->
    (last <= k)%nat -> (splits <> [] -> (last < k)%nat) ->
    Forall (fun seg => seg <> []) (tail splits) ->
    let st := fold_left (split_step ns B) (enumerate_from k rest) (splits, last) in
    (st.2 <= length ns)%nat
    /\ (st.1 <> [] -> (st.2 < length ns)%nat)
    /\ Forall (fun seg => seg <> []) (tail st.1).
Proof.
  induction rest as [|c rest IH]; intros k splits last Hk Hle Hlt Hne.
  - cbn in *. split_and!; [lia| |done]. intros H. specialize (Hlt H). lia.
  - cbn [enumerate_from fold_left split_step]. cbn [length] in Hk.
    case_bool_decide.
    + apply IH; [lia|lia|lia|].
      destruct (decide (splits = [])) as [->|Hs]; [by apply Forall_nil_2|].
      rewrite tail_app_nonempty by done.
      apply Forall_app. split; [done|].
      apply Forall_cons_2; [|by apply Forall_nil_2].
      apply slice_nonempty. specialize (Hlt Hs). lia.
    + apply IH; [lia|lia| |done]. intros Hs. specialize (Hlt Hs). lia.
Qed.

(** X2. Whatever the pre-tokenize function returns, every segment of [split]
    after the first is not empty. *)
Theorem split_segments_nonempty (pre_tokenize_func : str -> list str) (n : Z) (s : str) :
  Forall (fun seg => seg <> []) (tail (split pre_tokenize_func n s)).
Proof.
  unfold split.
  pose proof (split_loop_nonempty s (break_points (pre_tokenize_func s)) s
                0 [] 0 eq_refl (le_n 0)) as Hloop.
  unfold enumerate.
  destruct (fold_left _ _ _) as [splits last].
  destruct Hloop as (Hle & Hlt & Hne); [done|by apply Forall_nil_2|].
  cbn [fst snd] in *.
  destruct (decide (splits = [])) as [->|Hs]; [by apply Forall_nil_2|].
  rewrite tail_app_nonempty by done.
  apply Forall_app. split; [done|].
  apply Forall_cons_2; [|by apply Forall_nil_2].
  unfold slice_from. intros Hnil. apply (f_equal length) in Hnil.
  rewrite length_drop in Hnil. specialize (Hlt Hs). cbn in Hnil. lia.
Qed.

(** The empty string gives one empty segment. *)
End split_segments.

(** ** The order of the vocabulary *)

Section order_facts.
Implicit Types (acc ws : list str) (w tok : str).

Lemma add_new_present acc w : w ∈ acc -> add_new acc w = acc.
Proof. intros H. unfold add_new. by rewrite decide_True. Qed.

Lemma elem_of_add_new acc w x : x ∈ add_new acc w <-> x ∈ acc \/ x = w.
Proof.
  unfold add_new. case_decide.
  - naive_solver.
  - rewrite elem_of_app, list_elem_of_singleton. done.
Qed.

Lemma elem_of_fold_add_new ws : forall acc x,
  x ∈ fold_left add_new ws acc <-> x ∈ acc \/ x ∈ ws.
Proof.
  induction ws as [|w ws IH]; intros acc x; cbn [fold_left].
  - rewrite elem_of_nil. naive_solver.
  - rewrite IH, elem_of_add_new, elem_of_cons. naive_solver.
Qed.

Lemma elem_of_distinct_in_order ws x : x ∈ distinct_in_order ws <-> x ∈ ws.
Proof.
  unfold distinct_in_order. rewrite elem_of_fold_add_new, elem_of_nil. naive_solver.
Qed.

Lemma fold_add_new_fresh ws : forall acc,
  NoDup (acc ++ ws) -> fold_left add_new ws acc = acc ++ ws.
Proof.
  induction ws as [|w ws IH]; intros acc Hnd; cbn [fold_left].
  - by rewrite app_nil_r.
  - assert (Hw : w ∉ acc).
    { apply NoDup_app in Hnd as (_ & Hdis & _). intros Hin.
      apply (Hdis w Hin). apply elem_of_cons. by left. }
    unfold add_new at 2. rewrite decide_False by done.
    rewrite IH; rewrite <- app_assoc; done.
Qed.

(** Adding the distinct tokens of a list adds what the list adds. *)
Lemma fold_add_new_distinct ws : forall acc,
  fold_left add_new (distinct_in_order ws) acc = fold_left add_new ws acc.
Proof.
  induction ws as [|w ws IH] using rev_ind; intros acc; [done|].
  assert (Hd : distinct_in_order (ws ++ [w]) = add_new (distinct_in_order ws) w)
    by (unfold distinct_in_order; by rewrite fold_left_app).
  rewrite Hd, (fold_left_app _ ws). cbn [fold_left].
  destruct (decide (w ∈ distinct_in_order ws)) as [Hin|Hin].
  - rewrite (add_new_present (distinct_in_order ws) w) by done.
    rewrite IH. symmetry. apply add_new_present.
    apply elem_of_fold_add_new. right. by apply elem_of_distinct_in_order.
  - assert (Hw : add_new (distinct_in_order ws) w = distinct_in_order ws ++ [w])
      by (unfold add_new; by rewrite decide_False).
    rewrite Hw, fold_left_app. cbn [fold_left]. by rewrite IH.
Qed.

Lemma fold_add_new_join (tokens : list (list str)) : forall acc,
  fold_left add_new (mjoin (distinct_in_order <$> tokens)) acc
  = fold_left add_new (mjoin tokens) acc.
Proof.
  induction tokens as [|ws tokens IH]; intros acc; [done|].
  cbn [fmap list_fmap mjoin list_join].
  rewrite !fold_left_app, fold_add_new_distinct. apply IH.
Qed.

Lemma keys_dict_set_add_new {V} (d : dict V) (k : str) (v : V) :
  keys (dict_set d k v) = add_new (keys d) k.
Proof.
  rewrite keys_dict_set. unfold add_new.
  destruct (dict_contains d k) eqn:E.
  - apply dict_contains_true in E. by rewrite decide_True.
  - apply dict_contains_false in E. by rewrite decide_False.
Qed.

Lemma keys_Counter_count_fold ws : forall c : Counter,
  keys (fold_left Counter_count ws c) = fold_left add_new ws (keys c).
Proof.
  induction ws as [|w ws IH]; intros c; [done|].
  cbn [fold_left]. rewrite IH. unfold Counter_count.
  by rewrite keys_dict_set_add_new.
Qed.

Lemma keys_Counter_new ws : keys (Counter_new ws) = distinct_in_order ws.
Proof. apply keys_Counter_count_fold. Qed.

(** A loop of conditional assignments adds the keys of its items, when
    the items it skips are keys already. *)
Lemma keys_fold_cond_set (cond : str * Z -> bool) (val : str * Z -> Z) (l : Counter) :
  forall r : Counter,
    (forall ec, ec ∈ l -> cond ec = false -> ec.1 ∈ keys r) ->
    keys (fold_left (fun r ec => if cond ec then dict_set r ec.1 (val ec) else r) l r)
    = fold_left add_new (keys l) (keys r).
Proof.
  induction l as [|ec l IH]; intros r Hskip; [done|].
  cbn [fold_left]. change (keys (ec :: l)) with (ec.1 :: keys l). cbn [fold_left].
  destruct (cond ec) eqn:E.
  - rewrite IH.
    + by rewrite keys_dict_set_add_new.
    + intros ec' Hin Hc. apply elem_of_keys_dict_set. right.
      apply Hskip; [apply elem_of_cons; by right|done].
  - rewrite add_new_present by (apply Hskip; [apply elem_of_cons; by left|done]).
    apply IH. intros ec' Hin Hc. apply Hskip; [apply elem_of_cons; by right|done].
Qed.

Lemma keys_Counter_add (a b : Counter) :
  proper a -> proper b ->
  keys (Counter_add a b) = fold_left add_new (keys b) (keys a).
Proof.
  intros Ha Hb. unfold Counter_add.
  rewrite (keys_fold_cond_set
             (fun ec => negb (dict_contains a ec.1) && (0 <? ec.2))
             (fun ec => ec.2) b).
  - f_equal.
    rewrite (keys_fold_cond_set
               (fun ec => 0 <? ec.2 + Counter_getitem b ec.1)
               (fun ec => ec.2 + Counter_getitem b ec.1) a).
    + change (keys []) with (@nil str). rewrite fold_add_new_fresh; [done|].
      apply Ha.
    + intros [k n] Hin Hc. exfalso.
      apply Z.ltb_ge in Hc. cbn [fst snd] in Hc.
      pose proof (proper_getitem_nonneg b k Hb).
      destruct Ha as [_ Hpos]. apply (proj1 (Forall_forall _ _) Hpos) in Hin.
      cbn in Hin. lia.
  - intros [k n] Hin Hc. cbn [fst snd] in *.
    rewrite (keys_fold_cond_set
               (fun ec => 0 <? ec.2 + Counter_getitem b ec.1)
               (fun ec => ec.2 + Counter_getitem b ec.1) a).
    + apply elem_of_fold_add_new. right.
      destruct Hb as [_ Hpos]. apply (proj1 (Forall_forall _ _) Hpos) in Hin.
      cbn in Hin. apply andb_false_iff in Hc as [Hc|Hc].
      * apply dict_contains_true. by destruct (dict_contains a k).
      * apply Z.ltb_ge in Hc. lia.
    + intros [k' n'] Hin' Hc'. exfalso.
      apply Z.ltb_ge in Hc'. cbn [fst snd] in Hc'.
      pose proof (proper_getitem_nonneg b k' Hb).
      destruct Ha as [_ Hpos]. apply (proj1 (Forall_forall _ _) Hpos) in Hin'.
      cbn in Hin'. lia.
Qed.

Lemma keys_Counter_sum_fold (counters : list Counter) : forall acc : Counter,
  Forall proper counters -> proper acc ->
  keys (fold_left Counter_add counters acc)
  = fold_left add_new (mjoin (keys <$> counters)) (keys acc).
Proof.
  induction counters as [|c counters IH]; intros acc Hcs Hacc; [done|].
  apply Forall_cons in Hcs as [Hc Hcs].
  cbn [fold_left fmap list_fmap mjoin list_join].
  rewrite IH by (done || by apply Counter_add_proper).
  rewrite keys_Counter_add by done. by rewrite fold_left_app.
Qed.

Lemma keys_counted_all (fs : filesystem) (self : WordLevelTrainer.t) :
  keys (counted_all fs self) = distinct_in_order (corpus fs self).
Proof.
  unfold counted_all, Counter_sum, corpus, distinct_in_order.
  rewrite keys_Counter_sum_fold; [|
    apply Forall_fmap, Forall_forall; intros ws _; apply Counter_new_proper
    | apply proper_nil].
  rewrite <- list_fmap_compose.
  rewrite (list_fmap_ext (keys ∘ Counter_new) distinct_in_order)
    by (intros; apply keys_Counter_new).
  apply fold_add_new_join.
Qed.

Lemma dict_as_keys (d : Counter) (g : str -> Z) :
  (forall k v, (k, v) ∈ d -> v = g k) -> d = (fun k => (k, g k)) <$> keys d.
Proof.
  induction d as [|[k v] d IH]; intros Hg; [done|].
  change ((fun k => (k, g k)) <$> keys ((k, v) :: d))
    with ((k, g k) :: ((fun k => (k, g k)) <$> keys d)).
  rewrite <- IH.
  - f_equal. f_equal. apply Hg. apply elem_of_cons. by left.
  - intros k' v' Hin. apply Hg. apply elem_of_cons. by right.
Qed.

(** The counter of the corpus lists the distinct tokens in the order of
    their first occurrence, each with its observed frequency. *)
Lemma counted_all_in_order (fs : filesystem) (self : WordLevelTrainer.t) :
  counted_all fs self
  = (fun tok => (tok, observed fs self tok)) <$> distinct_in_order (corpus fs self).
Proof.
  rewrite <- keys_counted_all. apply dict_as_keys.
  intros k v Hin. by apply counted_all_elem in Hin as [-> _].
Qed.

Lemma filter_fmap_pairs (P : str * Z -> Prop) `{!forall kv, Decision (P kv)}
    (g : str -> Z) (l : list str) :
  filter P ((fun k => (k, g k)) <$> l)
  = (fun k => (k, g k)) <$> filter (fun k => P (k, g k)) l.
Proof.
  induction l as [|k l IH]; [done|].
  cbn [fmap list_fmap]. rewrite !filter_cons, IH.
  by destruct (decide (P (k, g k))).
Qed.
End order_facts.

(** ** When the builder returns, and what *)

Section builder_more.
Import WordLevelTrainer.

Lemma items_at_least_None (items : list (str * Z)) :
  items_at_least items None
  = match items with [] => Ok [] | _ :: _ => Raise compare_TypeError end.
Proof. by destruct items as [|[k v] items]. Qed.

Lemma no_other_token_iff (fs : filesystem) (self : t) :
  filter (fun kv : str * Z => kv.1 ∉ special_tokens self) (counted_all fs self) = []
  <-> forall tok, 0 < observed fs self tok -> tok ∈ special_tokens self.
Proof.
  split.
  - intros Hnil tok Hpos.
    destruct (decide (tok ∈ special_tokens self)) as [|Hn]; [done|]. exfalso.
    assert (Hin : (tok, observed fs self tok)
                  ∈ filter (fun kv : str * Z => kv.1 ∉ special_tokens self)
                      (counted_all fs self)).
    { apply list_elem_of_filter. split; [done|]. by apply counted_all_elem. }
    rewrite Hnil in Hin. by apply elem_of_nil in Hin.
  - intros Hall. apply elem_of_nil_inv. intros [tok n].
    rewrite list_elem_of_filter, counted_all_elem. cbn [fst].
    intros (Hn & -> & Hpos). by apply Hn, Hall.
Qed.

Lemma count_parallel_returns (fs : filesystem) (self : t) (nb_cores : Z) :
  (exists vocab self', count_parallel fs self nb_cores = (Ok vocab, self'))
  <-> exists fr, count_freq fs self = Ok fr.
Proof.
  unfold count_parallel. destruct (count_freq fs self) as [fr|e].
  - split; [by exists fr|]. intros _. by eexists _, _.
  - split; [by intros (? & ? & ?)|by intros [? ?]].
Qed.
End builder_more.

(** X3. [count_parallel] returns a vocabulary exactly when every input file
    can be opened, no size cutoff is set and, without a frequency cutoff,
    every token of the corpus is a special token. *)
Theorem count_parallel_returns_iff (fs : filesystem) (self : WordLevelTrainer.t)
    (nb_cores : Z) :
  (exists vocab self',
     WordLevelTrainer.count_parallel fs self nb_cores = (Ok vocab, self'))
  <-> readable fs (WordLevelTrainer.input_files self) = true
      /\ WordLevelTrainer.vocab_size self = None
      /\ (WordLevelTrainer.vocab_min_freq self <> None
          \/ forall tok, 0 < observed fs self tok ->
                         tok ∈ WordLevelTrainer.special_tokens self).
Proof.
  rewrite count_parallel_returns, count_freq_eq, readable_first_failure,
    <- no_other_token_iff.
  destruct (first_failure fs _); [split; [by intros [? ?]|by intros [? _]]|].
  destruct (WordLevelTrainer.vocab_size self);
    [split; [by intros [? ?]|by intros (_ & ? & _)]|].
  destruct (WordLevelTrainer.vocab_min_freq self) as [m|].
  - rewrite items_at_least_Some. split; [intros _; split_and!; [done..|by left]|].
    intros _. by eexists.
  - rewrite items_at_least_None.
    destruct (filter _ _) as [|kv l].
    + split; [intros _; split_and!; [done..|by right]|]. intros _. by eexists.
    + split; [by intros [? ?]|]. by intros (_ & _ & [?|?]).
Qed.

(** X4. When [count_parallel] does not return, the trainer is as before
    and the exception is that of the first input file that cannot be
    opened or read, if there is one; when all files can be read it is a
    [TypeError]: that of the list concatenation under a size cutoff, that
    of the comparison with [None] without any cutoff. *)
Theorem count_parallel_raises (fs : filesystem) (self : WordLevelTrainer.t)
    (nb_cores : Z) (e : exn) (self' : WordLevelTrainer.t) :
  WordLevelTrainer.count_parallel fs self nb_cores = (Raise e, self') ->
  self' = self
  /\ match first_failure fs (WordLevelTrainer.input_files self) with
     | Some e' => e = e'
     | None =>
         e = match WordLevelTrainer.vocab_size self with
             | Some _ => concat_TypeError
             | None => compare_TypeError
             end
     end.
Proof.
  unfold WordLevelTrainer.count_parallel.
  destruct (WordLevelTrainer.count_freq fs self) as [fr|e'] eqn:E; [done|].
  intros [= -> <-]. split; [done|]. rewrite count_freq_eq in E.
  destruct (first_failure fs _); [by injection E as <-|].
  destruct (WordLevelTrainer.vocab_size self) as [n|].
  - by injection E as <-.
  - destruct (WordLevelTrainer.vocab_min_freq self) as [m|].
    + by rewrite items_at_least_Some in E.
    + rewrite items_at_least_None in E. destruct (filter _ _); [done|].
      by injection E as <-.
Qed.

(** Two files, the second of which does not exist: the exception names it. *)
Lemma count_parallel_raises_witness :
  (WordLevelTrainer.count_parallel sample_fs
     (WordLevelTrainer.Build ws_split None [] [py "corpus.txt"; py "missing.txt"]
        None None (Some 2) true) 1).2
  = WordLevelTrainer.Build ws_split None [] [py "corpus.txt"; py "missing.txt"]
      None None (Some 2) true
  /\ match first_failure sample_fs [py "corpus.txt"; py "missing.txt"] with
     | Some e' => open_FileNotFoundError (py "missing.txt") = e'
     | None => open_FileNotFoundError (py "missing.txt") = compare_TypeError
     end.
Proof.
  apply (count_parallel_raises sample_fs
           (WordLevelTrainer.Build ws_split None [] [py "corpus.txt"; py "missing.txt"]
              None None (Some 2) true) 1
           (open_FileNotFoundError (py "missing.txt"))).
  apply injective_projections; [vm_compute; reflexivity|reflexivity].
Defined.

Section vocabulary_facts.
Import WordLevelTrainer.
Variable fs : filesystem.
Variable self : WordLevelTrainer.t.

(** The tokens kept by a frequency cutoff, in corpus order. *)
Lemma kept_in_order (m : Z) :
  filter (fun kv : str * Z => m <= kv.2)
    (filter (fun kv : str * Z => kv.1 ∉ special_tokens self) (counted_all fs self))
  = (fun tok => (tok, observed fs self tok))
    <$> filter (fun tok => tok ∉ special_tokens self /\ m <= observed fs self tok)
          (distinct_in_order (corpus fs self)).
Proof.
  rewrite counted_all_in_order.
  rewrite (filter_fmap_pairs (fun kv => kv.1 ∉ special_tokens self)).
  rewrite (filter_fmap_pairs (fun kv => m <= kv.2)).
  f_equal. rewrite list_filter_filter. apply filter_ext_in.
  intros tok _. cbn [fst snd]. naive_solver.
Qed.

Lemma fold_dict_set_other {V} (pairs : list (str * V)) (k : str) :
  forall d : dict V,
    k ∉ keys pairs ->
    dict_get (fold_left (fun d kv => dict_set d kv.1 kv.2) pairs d) k = dict_get d k.
Proof.
  induction pairs as [|[k' v'] pairs IH]; intros d Hk; [done|].
  change (keys ((k', v') :: pairs)) with (k' :: keys pairs) in Hk.
  apply not_elem_of_cons in Hk as [Hne Hk].
  cbn [fold_left fst snd]. rewrite IH by done.
  rewrite dict_get_set. by rewrite decide_False.
Qed.

(** [dict(pairs)] gives a key the value of its last pair. *)
Lemma dict_of_pairs_last {V} (p1 p2 : list (str * V)) (k : str) (v : V) :
  k ∉ keys p2 -> dict_get (dict_of_pairs (p1 ++ (k, v) :: p2)) k = Some v.
Proof.
  intros Hk. unfold dict_of_pairs. rewrite fold_left_app. cbn [fold_left fst snd].
  rewrite fold_dict_set_other by done.
  rewrite dict_get_set. by rewrite decide_True.
Qed.

Lemma index_vocab_last (f1 f2 : list (str * Z)) (tok : str) (n : Z) :
  tok ∉ keys f2 ->
  dict_get (index_vocab (f1 ++ (tok, n) :: f2)) tok = Some (length f1).
Proof.
  intros Hk. unfold index_vocab, enumerate.
  rewrite enumerate_from_app, fmap_app. cbn [enumerate_from fmap list_fmap].
  cbn [fst snd Nat.add].
  apply dict_of_pairs_last. by rewrite indexed_keys.
Qed.
End vocabulary_facts.

(** X5. Under a frequency cutoff [m] the frequency list is the special
    tokens followed by the distinct tokens of the corpus that are not
    special and occur at least [m] times, in the order of their first
    occurrence; with distinct special tokens the vocabulary numbers these
    tokens in that order. *)
Theorem vocabulary_in_corpus_order (fs : filesystem) (self : WordLevelTrainer.t)
    (m nb_cores : Z) (vocab : dict nat) (self' : WordLevelTrainer.t) :
  WordLevelTrainer.vocab_size self = None ->
  WordLevelTrainer.vocab_min_freq self = Some m ->
  WordLevelTrainer.count_parallel fs self nb_cores = (Ok vocab, self') ->
  let specials := WordLevelTrainer.special_tokens self in
  let kept :=
    filter (fun tok => tok ∉ specials /\ m <= observed fs self tok)
      (distinct_in_order (corpus fs self)) in
  WordLevelTrainer.freq self'
  = Some (special_part fs self ++ ((fun tok => (tok, observed fs self tok)) <$> kept))
  /\ (NoDup specials ->
      keys vocab = specials ++ kept
      /\ values vocab = seq 0 (length specials + length kept)).
Proof.
  intros Hsize Hmin (fr & Hfr & -> & Hfreq & _)%count_parallel_Ok. cbv zeta.
  pose proof (specials_first fs self fr Hfr) as [_ Hnd].
  rewrite (count_freq_min_freq fs self m Hsize Hmin) in Hfr.
  destruct (first_failure fs _); [done|]. injection Hfr as <-.
  rewrite kept_in_order in *.
  split; [done|]. intros Hs. destruct (Hnd Hs) as [Hkeys _].
  rewrite index_vocab_NoDup by done. unfold enumerate.
  rewrite indexed_keys, indexed_values. split.
  - unfold keys. rewrite fmap_app. fold (keys (special_part fs self)).
    rewrite special_part_keys. f_equal.
    rewrite <- list_fmap_compose. apply list_fmap_id.
  - by rewrite length_app, special_part_length, length_fmap.
Qed.

Lemma vocabulary_in_corpus_order_witness :
  WordLevelTrainer.freq
    (WordLevelTrainer.count_parallel sample_fs
       (sample_trainer sample_specials None (Some 2)) 1).2
  = Some (special_part sample_fs (sample_trainer sample_specials None (Some 2))
          ++ ((fun tok => (tok, observed sample_fs
                                  (sample_trainer sample_specials None (Some 2)) tok))
              <$> filter (fun tok => tok ∉ sample_specials
                            /\ 2 <= observed sample_fs
                                      (sample_trainer sample_specials None (Some 2)) tok)
                    (distinct_in_order
                       (corpus sample_fs (sample_trainer sample_specials None (Some 2))))))
  /\ (NoDup sample_specials ->
      keys sample_vocab
      = sample_specials
        ++ filter (fun tok => tok ∉ sample_specials
                     /\ 2 <= observed sample_fs
                               (sample_trainer sample_specials None (Some 2)) tok)
             (distinct_in_order
                (corpus sample_fs (sample_trainer sample_specials None (Some 2))))
      /\ values sample_vocab
         = seq 0 (length sample_specials
                  + length (filter (fun tok => tok ∉ sample_specials
                              /\ 2 <= observed sample_fs
                                        (sample_trainer sample_specials None (Some 2)) tok)
                      (distinct_in_order
                         (corpus sample_fs
                            (sample_trainer sample_specials None (Some 2))))))).
Proof.
  apply (vocabulary_in_corpus_order sample_fs
           (sample_trainer sample_specials None (Some 2)) 2 1 sample_vocab);
    [reflexivity|reflexivity|].
  apply injective_projections; [vm_compute; reflexivity|reflexivity].
Defined.

(** X6. Under a frequency cutoff [m] a token is in the returned vocabulary
    exactly when it is a special token or occurs in the corpus at least
    [m] times. *)
Theorem vocabulary_membership (fs : filesystem) (self : WordLevelTrainer.t)
    (m nb_cores : Z) (vocab : dict nat) (self' : WordLevelTrainer.t) (tok : str) :
  WordLevelTrainer.vocab_size self = None ->
  WordLevelTrainer.vocab_min_freq self = Some m ->
  WordLevelTrainer.count_parallel fs self nb_cores = (Ok vocab, self') ->
  is_Some (dict_get vocab tok)
  <-> tok ∈ WordLevelTrainer.special_tokens self
      \/ (0 < observed fs self tok /\ m <= observed fs self tok).
Proof.
  intros Hsize Hmin (fr & Hfr & -> & _)%count_parallel_Ok.
  rewrite (count_freq_min_freq fs self m Hsize Hmin) in Hfr.
  destruct (first_failure fs _); [done|]. injection Hfr as <-.
  rewrite index_vocab_contains. unfold keys. rewrite fmap_app, elem_of_app.
  fold (keys (special_part fs self)). rewrite special_part_keys.
  rewrite list_elem_of_fmap. split.
  - intros [Hs|([tok' n] & -> & Hin)]; [by left|].
    apply kept_elem in Hin as (_ & -> & Hpos & Hge). by right.
  - intros [Hs|[Hpos Hge]]; [by left|].
    destruct (decide (tok ∈ WordLevelTrainer.special_tokens self)) as [|Hn]; [by left|].
    right. exists (tok, observed fs self tok). split; [done|].
    by apply kept_elem.
Qed.

Lemma vocabulary_membership_witness :
  is_Some (dict_get sample_vocab (py "a"))
  <-> py "a" ∈ sample_specials
      \/ (0 < observed sample_fs (sample_trainer sample_specials None (Some 2)) (py "a")
          /\ 2 <= observed sample_fs (sample_trainer sample_specials None (Some 2)) (py "a")).
Proof.
  apply (vocabulary_membership sample_fs (sample_trainer sample_specials None (Some 2))
           2 1 sample_vocab
           (WordLevelTrainer.count_parallel sample_fs
              (sample_trainer sample_specials None (Some 2)) 1).2);
    [reflexivity|reflexivity|].
  apply injective_projections; [vm_compute; reflexivity|reflexivity].
Defined.

(** X7. Whenever [count_parallel] returns, a special token has the index of
    its last position in the declared list, repeated or not. *)
Theorem special_token_last_position (fs : filesystem) (self : WordLevelTrainer.t)
    (nb_cores : Z) (vocab : dict nat) (self' : WordLevelTrainer.t)
    (i : nat) (tok : str) :
  WordLevelTrainer.count_parallel fs self nb_cores = (Ok vocab, self') ->
  WordLevelTrainer.special_tokens self !! i = Some tok ->
  (forall j, (i < j)%nat -> WordLevelTrainer.special_tokens self !! j <> Some tok) ->
  dict_get vocab tok = Some i.
Proof.
  intros (fr & Hfr & -> & _)%count_parallel_Ok Hi Hlast.
  apply count_freq_Ok in Hfr as (_ & _ & kept & _ & -> & _ & Hdis).
  pose proof (take_drop_middle _ _ _ Hi) as Hsplit.
  unfold special_part. rewrite <- Hsplit, fmap_app, fmap_cons, <- app_assoc.
  cbn [app].
  rewrite index_vocab_last.
  - f_equal. rewrite length_fmap, length_take. apply lookup_lt_Some in Hi. lia.
  - unfold keys. rewrite fmap_app, elem_of_app, <- list_fmap_compose.
    rewrite (list_fmap_id (drop (S i) _)).
    intros [Hin|Hin].
    + apply list_elem_of_lookup in Hin as [j Hj]. rewrite lookup_drop in Hj.
      by apply (Hlast (S i + j)%nat); [lia|].
    + apply (Hdis tok Hin). by eapply list_elem_of_lookup_2.
Qed.

Lemma special_token_last_position_witness :
  dict_get
    [ (py "<pad>", 2%nat); (py "<s>", 1%nat); (py "b", 3%nat); (py "a", 4%nat);
      (py "c", 5%nat); ([3585; 3634]%N, 6%nat); ([3617; 3634]%N, 7%nat) ]
    (py "<pad>") = Some 2%nat.
Proof.
  apply (special_token_last_position sample_fs
           (sample_trainer [py "<pad>"; py "<s>"; py "<pad>"] None (Some 1)) 1 _
           (WordLevelTrainer.count_parallel sample_fs
              (sample_trainer [py "<pad>"; py "<s>"; py "<pad>"] None (Some 1)) 1).2).
  - apply injective_projections; [vm_compute; reflexivity|reflexivity].
  - reflexivity.
  - intros j Hj. destruct j as [|[|[|j]]]; [lia..|]. discriminate.
Defined.

(** ** The two ways to a mask of special tokens *)

Section mask_compose.
Import ThaiWordsNewmmTokenizer.
Variable self : ThaiWordsNewmmTokenizer.t.

Lemma special_id_mark_cls : special_id_mark self (cls_token_id self) = 1.
Proof.
  unfold special_id_mark. rewrite bool_decide_eq_true_2; [done|].
  apply elem_of_cons. right. apply elem_of_cons. by left.
Qed.

Lemma special_id_mark_sep : special_id_mark self (sep_token_id self) = 1.
Proof.
  unfold special_id_mark. rewrite bool_decide_eq_true_2; [done|].
  apply elem_of_cons. by left.
Qed.

Lemma marks_zero_iff (ids : list Z) :
  special_id_mark self <$> ids = replicate (length ids) 0
  <-> Forall (fun x => x <> cls_token_id self /\ x <> sep_token_id self) ids.
Proof.
  induction ids as [|x ids IH]; [by split; [intros; apply Forall_nil_2|]|].
  cbn [fmap list_fmap length replicate]. rewrite Forall_cons, <- IH.
  unfold special_id_mark at 1. case_bool_decide as Hx.
  - split; [done|]. intros [[Hc Hs] _]. exfalso.
    apply elem_of_cons in Hx as [->|Hx]; [done|].
    apply elem_of_cons in Hx as [->|Hx]; [done|]. by apply elem_of_nil in Hx.
  - split.
    + intros [= Heq]. split; [|done]. split; intros ->; apply Hx.
      * apply elem_of_cons. right. apply elem_of_cons. by left.
      * apply elem_of_cons. by left.
    + intros [_ ->]. done.
Qed.
End mask_compose.

(** X8. The mask computed from the built inputs, as already formatted, is the
    mask computed from the given lists exactly when none of the given ids
    is the [cls] or the [sep] id. *)
Theorem mask_of_built_inputs (self : ThaiWordsNewmmTokenizer.t)
    (token_ids_0 : list Z) (token_ids_1 : option (list Z)) :
  ThaiWordsNewmmTokenizer.get_special_tokens_mask self
    (ThaiWordsNewmmTokenizer.build_inputs_with_special_tokens self token_ids_0 token_ids_1)
    None true
  = ThaiWordsNewmmTokenizer.get_special_tokens_mask self token_ids_0 token_ids_1 false
  <-> Forall (fun x => x <> ThaiWordsNewmmTokenizer.cls_token_id self
                       /\ x <> ThaiWordsNewmmTokenizer.sep_token_id self)
        (token_ids_0 ++ default [] token_ids_1).
Proof.
  unfold ThaiWordsNewmmTokenizer.get_special_tokens_mask,
    ThaiWordsNewmmTokenizer.build_inputs_with_special_tokens.
  change (fun x : Z => if bool_decide (x ∈ [ThaiWordsNewmmTokenizer.sep_token_id self;
                                            ThaiWordsNewmmTokenizer.cls_token_id self])
                       then 1 else 0)
    with (special_id_mark self).
  destruct token_ids_1 as [token_ids_1|].
  - change (default [] (Some token_ids_1)) with token_ids_1.
    rewrite Forall_app, <- !marks_zero_iff.
    rewrite !fmap_app. cbn [fmap list_fmap].
    rewrite special_id_mark_cls, special_id_mark_sep.
    split.
    + intros [= Heq].
      apply app_inj_1 in Heq as [H0 Heq]; [|by rewrite length_fmap, length_replicate].
      injection Heq as Heq.
      apply app_inj_1 in Heq as [H1 _]; [|by rewrite length_fmap, length_replicate].
      done.
    + intros [-> ->]. done.
  - change (default [] None) with (@nil Z).
    rewrite app_nil_r, <- marks_zero_iff.
    rewrite !fmap_app. cbn [fmap list_fmap].
    rewrite special_id_mark_cls, special_id_mark_sep.
    split.
    + intros [= Heq].
      apply app_inj_1 in Heq as [H0 _]; [|by rewrite length_fmap, length_replicate].
      done.
    + intros ->. done.
Qed.

(** ** Stripping and replacing *)

Section text_facts.
Implicit Types (s : list N) (c : N).

Lemma lstrip_spec s :
  exists lead, s = lead ++ lstrip s /\ all_whitespace lead
               /\ forall c, head (lstrip s) = Some c -> is_whitespace c = false.
Proof.
  induction s as [|c s (lead & Hs & Hlead & Hhead)].
  - exists []. split_and!; [done|apply Forall_nil_2|done].
  - cbn [lstrip]. destruct (is_whitespace c) eqn:E.
    + exists (c :: lead). split_and!; [by rewrite Hs at 1|by apply Forall_cons_2|done].
    + exists []. split_and!; [done|apply Forall_nil_2|]. by intros ? [= <-].
Qed.

Lemma rstrip_spec s :
  exists trail, s = rstrip s ++ trail /\ all_whitespace trail
                /\ forall c, last (rstrip s) = Some c -> is_whitespace c = false.
Proof.
  destruct (lstrip_spec (reverse s)) as (lead & Hs & Hlead & Hhead).
  exists (reverse lead). unfold rstrip. split_and!.
  - apply (f_equal reverse) in Hs.
    rewrite reverse_involutive, reverse_app in Hs. exact Hs.
  - by apply Forall_reverse.
  - intros c. rewrite last_reverse. apply Hhead.
Qed.

(** [strip] takes whitespace off the two ends and nothing else. *)
Lemma strip_spec s :
  exists lead trail, s = lead ++ strip s ++ trail
                     /\ all_whitespace lead /\ all_whitespace trail
                     /\ no_outer_whitespace (strip s).
Proof.
  destruct (lstrip_spec s) as (lead & Hs & Hlead & Hhead).
  destruct (rstrip_spec (lstrip s)) as (trail & Hl & Htrail & Hlast).
  exists lead, trail. unfold strip. split_and!; [by rewrite <- Hl|done..|].
  split; [|done]. intros c Hc. apply Hhead.
  rewrite Hl. destruct (rstrip (lstrip s)); [done|]. exact Hc.
Qed.

Lemma lstrip_id s :
  (forall c, head s = Some c -> is_whitespace c = false) -> lstrip s = s.
Proof.
  destruct s as [|c s]; [done|]. intros H. cbn. by rewrite (H c eq_refl).
Qed.

Lemma strip_id s : no_outer_whitespace s -> strip s = s.
Proof.
  intros [Hhead Hlast]. unfold strip, rstrip.
  rewrite (lstrip_id s) by done.
  rewrite lstrip_id; [apply reverse_involutive|].
  intros c. rewrite head_reverse. apply Hlast.
Qed.

Lemma elem_of_replace_char (old : char) (new : str) s c :
  c ∈ replace_char old new s <-> (c ∈ new /\ old ∈ s) \/ (c ∈ s /\ c <> old).
Proof.
  induction s as [|c' s IH]; cbn [replace_char].
  - rewrite !elem_of_nil. naive_solver.
  - rewrite elem_of_app, IH, !elem_of_cons.
    case_decide as Hc.
    + subst c'. intuition congruence.
    + rewrite list_elem_of_singleton. intuition congruence.
Qed.

Lemma replace_char_absent (old : char) (new : str) s :
  old ∉ s -> replace_char old new s = s.
Proof.
  induction s as [|c s IH]; [done|]. rewrite not_elem_of_cons. intros [Hne Hs].
  cbn [replace_char]. case_decide; [done|]. cbn. by rewrite IH.
Qed.

Lemma replace_char_length (old : char) (new : str) s :
  length (replace_char old new s)
  = (length (filter (fun c => c <> old) s)
     + length new * length (filter (fun c => c = old) s))%nat.
Proof.
  induction s as [|c s IH]; [cbn; lia|].
  cbn [replace_char]. rewrite length_app, IH, !filter_cons.
  case_decide as Hc.
  - subst c. rewrite decide_False by auto. rewrite decide_True by done.
    cbn [length]. lia.
  - rewrite decide_True by done. rewrite decide_False by done.
    cbn [length]. lia.
Qed.

Lemma mjoin_concat {A} (l : list (list A)) : mjoin l = concat l.
Proof. induction l as [|x l IH]; [done|]. cbn. f_equal. exact IH. Qed.
End text_facts.

(** ** Detokenizing *)

(** X9. [convert_tokens_to_string] of the word-level tokenizer takes
    whitespace off the two ends of the joined tokens and nothing else:
    the result neither starts nor ends with whitespace, and converting
    the result again, as one token, gives it back. *)
Theorem convert_tokens_to_string_strips (tokens : list str) :
  let out := ThaiWordsNewmmTokenizer.convert_tokens_to_string tokens in
  (exists lead trail,
     mjoin tokens = lead ++ out ++ trail
     /\ all_whitespace lead /\ all_whitespace trail)
  /\ no_outer_whitespace out
  /\ ThaiWordsNewmmTokenizer.convert_tokens_to_string [out] = out.
Proof.
  cbv zeta. unfold ThaiWordsNewmmTokenizer.convert_tokens_to_string.
  destruct (strip_spec (mjoin tokens)) as (lead & trail & Hjoin & Hlead & Htrail & Hout).
  split; [by exists lead, trail|]. split; [done|].
  change (mjoin [strip (mjoin tokens)]) with (strip (mjoin tokens) ++ []).
  rewrite app_nil_r. by apply strip_id.
Qed.

(** Joining the segments of [split] gives the text back, up to the
    whitespace at its two ends; exactly, when it has none. *)
Theorem convert_split_round_trip (pre_tokenize_func : str -> list str) (n : Z) (s : str) :
  ThaiWordsNewmmTokenizer.convert_tokens_to_string
    (CustomPreTokenizer.split pre_tokenize_func n s) = strip s
  /\ (no_outer_whitespace s ->
      ThaiWordsNewmmTokenizer.convert_tokens_to_string
        (CustomPreTokenizer.split pre_tokenize_func n s) = s).
Proof.
  assert (Hjoin : mjoin (CustomPreTokenizer.split pre_tokenize_func n s) = s).
  { rewrite mjoin_concat. unfold CustomPreTokenizer.split.
    pose proof (split_loop_inv s
      (CustomPreTokenizer.break_points (pre_tokenize_func s)) s 0 [] 0) as Hinv.
    unfold enumerate.
    destruct (fold_left _ _ _) as [splits last].
    simpl in Hinv.
    rewrite concat_app. simpl. rewrite app_nil_r.
    rewrite Hinv by (lia || done).
    apply take_drop. }
  unfold ThaiWordsNewmmTokenizer.convert_tokens_to_string. rewrite Hjoin.
  split; [done|]. apply strip_id.
Qed.

(** X10. [convert_tokens_to_string] of the SentencePiece tokenizer leaves no
    piece marker (U+2581) in its result, which neither starts nor ends
    with whitespace. *)
Theorem roberta_convert_tokens_to_string (tokens : list str) :
  SPIECE_UNDERLINE ∉ ThaiRobertaTokenizer.convert_tokens_to_string tokens
  /\ no_outer_whitespace (ThaiRobertaTokenizer.convert_tokens_to_string tokens).
Proof.
  unfold ThaiRobertaTokenizer.convert_tokens_to_string.
  destruct (strip_spec (replace_char SPIECE_UNDERLINE [newline] (mjoin tokens)))
    as (lead & trail & Hs & _ & _ & Hout).
  split; [|done]. intros Hin.
  assert (Hin' : SPIECE_UNDERLINE ∈ replace_char SPIECE_UNDERLINE [newline] (mjoin tokens)).
  { rewrite Hs. apply elem_of_app. right. apply elem_of_app. by left. }
  apply elem_of_replace_char in Hin' as [[Hnew _]|[_ Hne]]; [|done].
  apply list_elem_of_singleton in Hnew. discriminate.
Qed.

(** ** Preparing text *)

(** X11. The text returned by [prepare_for_tokenization] holds no space; it is
    two characters longer for every space of the given text, and the
    given text itself when that has no space. *)
Theorem prepare_for_tokenization_text {V} (text : str) (is_split_into_words : bool)
    (kwargs : gmap str V) :
  let out :=
    (ThaiWordsNewmmTokenizer.prepare_for_tokenization text is_split_into_words kwargs).1.1 in
  space ∉ out
  /\ length out = (length text + 2 * length (filter (fun c => c = space) text))%nat
  /\ (space ∉ text -> out = text).
Proof.
  cbv zeta. unfold ThaiWordsNewmmTokenizer.prepare_for_tokenization.
  destruct (kwargs !! py "is_pretokenized"); cbn [fst]; (split_and!;
    [ intros [[Hin _]|[_ Hne]]%elem_of_replace_char; [|done];
      vm_compute in Hin;
      repeat (apply elem_of_cons in Hin as [Hin|Hin]; [discriminate|]);
      by apply elem_of_nil in Hin
    | rewrite replace_char_length;
      pose proof (filter_app_complement (fun c => c = space) text) as Hperm;
      apply Permutation_length in Hperm; rewrite length_app in Hperm;
      change (length SPACE_TOKEN) with 3%nat; unfold str, char in *; lia
    | apply replace_char_absent ]).
Qed.

Section prepare_injective.

Lemma replace_space_cons (c : N) (s : list N) :
  replace_char space SPACE_TOKEN (c :: s)
  = (if decide (c = space) then SPACE_TOKEN else [c]) ++ replace_char space SPACE_TOKEN s.
Proof. done. Qed.

(** On texts without [<] the space token can be told from the text. *)
Lemma replace_space_inj (s1 : list N) :
  forall s2 : list N,
    less_than_sign ∉ s1 -> less_than_sign ∉ s2 ->
    replace_char space SPACE_TOKEN s1 = replace_char space SPACE_TOKEN s2 ->
    s1 = s2.
Proof.
  induction s1 as [|c1 s1 IH]; intros [|c2 s2] H1 H2 Heq.
  - done.
  - rewrite replace_space_cons in Heq. by case_decide.
  - rewrite replace_space_cons in Heq. by case_decide.
  - apply not_elem_of_cons in H1 as [Hc1 H1].
    apply not_elem_of_cons in H2 as [Hc2 H2].
    rewrite !replace_space_cons in Heq.
    destruct (decide (c1 = space)) as [->|Hn1], (decide (c2 = space)) as [->|Hn2].
    + f_equal. apply IH; [done..|]. by apply app_inv_head in Heq.
    + exfalso. injection Heq as Heq _. by subst c2.
    + exfalso. injection Heq as Heq _. by subst c1.
    + injection Heq as -> Heq. f_equal. by apply IH.
Qed.
End prepare_injective.

(** X12. [prepare_for_tokenization] loses nothing on texts without [<]: two
    such texts with the same result are the same text. *)
Theorem prepare_for_tokenization_injective {V} (text1 text2 : str) (b1 b2 : bool)
    (kwargs1 kwargs2 : gmap str V) :
  less_than_sign ∉ text1 -> less_than_sign ∉ text2 ->
  (ThaiRobertaTokenizer.prepare_for_tokenization text1 b1 kwargs1).1.1
  = (ThaiRobertaTokenizer.prepare_for_tokenization text2 b2 kwargs2).1.1 ->
  text1 = text2.
Proof.
  intros H1 H2. unfold ThaiRobertaTokenizer.prepare_for_tokenization.
  destruct (kwargs1 !! py "is_pretokenized"), (kwargs2 !! py "is_pretokenized");
    cbn [fst]; by apply replace_space_inj.
Qed.

Lemma prepare_for_tokenization_injective_witness :
  py "a b" = py "a b".
Proof.
  apply (prepare_for_tokenization_injective (V := unit) (py "a b") (py "a b")
           false true ∅ ∅).
  - apply (bool_decide_unpack (less_than_sign ∉ py "a b")). vm_compute. exact I.
  - apply (bool_decide_unpack (less_than_sign ∉ py "a b")). vm_compute. exact I.
  - reflexivity.
Defined.

(** A text that spells the space token is not told from a space. *)
Example prepare_for_tokenization_collision :
  (ThaiRobertaTokenizer.prepare_for_tokenization (V := unit) (py "a b") false ∅).1.1
  = (ThaiRobertaTokenizer.prepare_for_tokenization (V := unit) (py "a<_>b") false ∅).1.1.
Proof. vm_compute. reflexivity. Qed.


(** ** The lines of a file *)

Section lines_facts.

Lemma read_loop_step (pre_tokenize_func : str -> list str) (f : str) (words : list str) :
  read_loop pre_tokenize_func f words
  = match readline f with
    | ([], _) => words
    | (c :: line, rest) =>
        let line := strip (c :: line) in
        read_loop pre_tokenize_func rest
          (if bool_decide (0 < length line)%nat && negb (isspace line)
           then words ++ pre_tokenize_func line
           else words)
    end.
Proof.
  apply (read_loop_elim
           (fun ptf f words res =>
              res = match readline f with
                    | ([], _) => words
                    | (c :: line, rest) =>
                        let line := strip (c :: line) in
                        read_loop ptf rest
                          (if bool_decide (0 < length line)%nat && negb (isspace line)
                           then words ++ ptf line
                           else words)
                    end)).
  - intros ptf g s0 e w _. by rewrite e.
  - intros ptf g c line rest Hread w _ _. by rewrite Hread.
Qed.

Lemma readline_length (f line rest : str) :
  readline f = (line, rest) -> length f = (length line + length rest)%nat.
Proof.
  revert line rest. induction f as [|c f IH]; intros line rest; cbn [readline].
  - by intros [= <- <-].
  - case_decide.
    + by intros [= <- <-].
    + destruct (readline f) as [l r]. intros [= <- <-]. cbn.
      by rewrite (IH l r).
Qed.

Lemma readline_shorter (f : str) (c : char) (line rest : str) :
  readline f = (c :: line, rest) -> (length rest < length f)%nat.
Proof. intros H%readline_length. cbn in H. lia. Qed.

Lemma mjoin_one_token (lines : list str) : mjoin (one_token <$> lines) = lines.
Proof. induction lines as [|l lines IH]; [done|]. cbn. f_equal. exact IH. Qed.

(** The loop with any pre-tokenize function: the tokens of the lines that
    the loop with [one_token] collects, added to [words]. *)
Lemma read_loop_lines (n : nat) :
  forall (f : str) (ptf : str -> list str) (words : list str),
    (length f < n)%nat ->
    read_loop ptf f words = words ++ mjoin (ptf <$> read_loop one_token f []).
Proof.
  induction n as [|n IH]; intros f ptf words Hn; [lia|].
  rewrite (read_loop_step ptf), (read_loop_step one_token).
  destruct (readline f) as [[|c line] rest] eqn:E; [by rewrite app_nil_r|].
  apply readline_shorter in E. cbv zeta.
  assert (Hrest : (length rest < n)%nat) by lia.
  pose proof (fun w => IH rest ptf w Hrest) as Hptf.
  pose proof (fun w => IH rest one_token w Hrest) as Hone.
  rewrite mjoin_one_token in Hone.
  destruct (bool_decide _ && negb _).
  - rewrite Hptf, (Hone ([] ++ one_token (strip (c :: line)))).
    cbn [app one_token fmap list_fmap mjoin list_join].
    by rewrite <- app_assoc.
  - by rewrite Hptf.
Qed.

Lemma read_loop_good_lines (n : nat) :
  forall f : str,
    (length f < n)%nat ->
    Forall (fun line => line <> [] /\ no_outer_whitespace line)
      (read_loop one_token f []).
Proof.
  induction n as [|n IH]; intros f Hn; [lia|].
  rewrite read_loop_step.
  destruct (readline f) as [[|c line] rest] eqn:E; [by apply Forall_nil_2|].
  apply readline_shorter in E. cbv zeta.
  assert (Hrest : (length rest < n)%nat) by lia.
  rewrite (read_loop_lines n rest one_token _ Hrest), mjoin_one_token.
  destruct (bool_decide _ && negb _) eqn:Hcond.
  - apply Forall_app. split; [|by apply IH].
    apply Forall_cons_2; [|by apply Forall_nil_2].
    apply andb_prop in Hcond as [Hlen%bool_decide_eq_true_1 _].
    split; [by destruct (strip (c :: line)); [cbn in Hlen; lia|]|].
    by destruct (strip_spec (c :: line)) as (? & ? & _ & _ & _ & ?).
  - cbn [app]. by apply IH.
Qed.
End lines_facts.

(** X14. [count_one] on a file that can be read counts the tokens that the
    pre-tokenize function gives for each line in turn, where the lines
    are those that the loop collects when every line is its own token;
    each of them is not empty and has no whitespace at either end. *)
Theorem count_one_lines (fs : filesystem) (self : WordLevelTrainer.t) (fname f : str) :
  fs fname = Ok f ->
  let lines := read_loop one_token f [] in
  WordLevelTrainer.count_one fs self fname
  = Ok (Counter_new (mjoin (WordLevelTrainer.pre_tokenize_func self <$> lines)))
  /\ Forall (fun line => line <> [] /\ no_outer_whitespace line) lines.
Proof.
  intros Hf. cbv zeta. unfold WordLevelTrainer.count_one. rewrite Hf. split.
  - by rewrite (read_loop_lines (S (length f)) f _ [] (Nat.lt_succ_diag_r _)).
  - apply (read_loop_good_lines (S (length f))). lia.
Qed.

Lemma count_one_lines_witness :
  WordLevelTrainer.count_one sample_fs (sample_trainer sample_specials None (Some 2))
    (py "corpus.txt")
  = Ok (Counter_new
          (mjoin (ws_split <$> read_loop one_token
                                 (py "b a <s> a" ++ [newline] ++ py "   " ++ [newline]
                                  ++ py "c b a" ++ [newline]) [])))
  /\ Forall (fun line => line <> [] /\ no_outer_whitespace line)
       (read_loop one_token
          (py "b a <s> a" ++ [newline] ++ py "   " ++ [newline] ++ py "c b a" ++ [newline])
          []).
Proof.
  apply (count_one_lines sample_fs (sample_trainer sample_specials None (Some 2))
           (py "corpus.txt")).
  reflexivity.
Defined.

(** The lines of the sample file that reach the pre-tokenize function. *)
Example sample_lines :
  read_loop one_token
    (py "b a <s> a" ++ [newline] ++ py "   " ++ [newline] ++ py "  c b a " ++ [newline]) []
  = [py "b a <s> a"; py "c b a"].
Proof. vm_compute. reflexivity. Qed.

(** ** The three lists of a model input *)

(** X15. The token type ids are zeros, one for every id of the built inputs,
    and the mask without special tokens has as many entries: two more
    than the ids of a single sequence, four more than those of a pair. *)
Theorem token_type_ids_align (self : ThaiWordsNewmmTokenizer.t)
    (token_ids_0 : list Z) (token_ids_1 : option (list Z)) :
  let inputs :=
    ThaiWordsNewmmTokenizer.build_inputs_with_special_tokens self token_ids_0 token_ids_1 in
  let type_ids :=
    ThaiWordsNewmmTokenizer.create_token_type_ids_from_sequences self token_ids_0 token_ids_1 in
  type_ids = replicate (length inputs) 0
  /\ length inputs
     = (length token_ids_0
        + match token_ids_1 with Some ids => length ids + 4 | None => 2 end)%nat
  /\ exists mask,
       ThaiWordsNewmmTokenizer.get_special_tokens_mask self token_ids_0 token_ids_1 false
       = Ok mask
       /\ length mask = length type_ids.
Proof.
  cbv zeta.
  unfold ThaiWordsNewmmTokenizer.create_token_type_ids_from_sequences,
    ThaiWordsNewmmTokenizer.build_inputs_with_special_tokens,
    ThaiWordsNewmmTokenizer.get_special_tokens_mask.
  destruct token_ids_1 as [token_ids_1|]; cbv zeta.
  - split; [done|]. split; [list_len|].
    eexists. split; [done|]. list_len.
  - split; [done|]. split; [list_len|].
    eexists. split; [done|]. list_len.
Qed.

(** ** The keyword arguments of [prepare_for_tokenization] *)

(** X16. [prepare_for_tokenization] returns the keyword arguments without
    [is_pretokenized] and otherwise as given, warns exactly when that
    keyword was given, and returns a text that depends on neither the
    flag nor the keyword arguments. *)
Theorem prepare_for_tokenization_kwargs {V} (text : str) (is_split_into_words : bool)
    (kwargs : gmap str V) :
  let out := ThaiRobertaTokenizer.prepare_for_tokenization text is_split_into_words kwargs in
  out.1.2 !! py "is_pretokenized" = None
  /\ (forall key, key <> py "is_pretokenized" -> out.1.2 !! key = kwargs !! key)
  /\ (out.2 = [] <-> kwargs !! py "is_pretokenized" = None)
  /\ (forall (flag : bool) (kwargs' : gmap str V),
        (ThaiRobertaTokenizer.prepare_for_tokenization text flag kwargs').1.1 = out.1.1).
Proof.
  cbv zeta. unfold ThaiRobertaTokenizer.prepare_for_tokenization.
  destruct (kwargs !! py "is_pretokenized") as [v|] eqn:Hkey; cbn [fst snd].
  - split; [apply lookup_delete_eq|].
    split; [intros key Hne; by apply lookup_delete_ne|].
    split; [split; discriminate|].
    intros flag kwargs'. by destruct (kwargs' !! py "is_pretokenized").
  - split; [done|]. split; [done|]. split; [done|].
    intros flag kwargs'. by destruct (kwargs' !! py "is_pretokenized").
Qed.
